(** * ai-project-manager-gas: the sheet-to-JSON core, embedded and verified

    Shallow embedding of the pure core of the Apps Script project:
    - [config.js]   : [CONFIG], [getWebhookUrl]
    - [context.js]  : [createContextJSON], [batchParseValues], [parseValue]
    - the Epics module : [isExtractTodoSummariesTrigger], [getRowData],
      [createEpicsJSON], [getContextData], [handleEpicsEdit]
    - the cache and the handlers : [getCacheKey], [getSheetData],
      [handleContextEdit], [handleEdit], [sendToWebhook]
    - [tests.js]    : [isEquivalent]

    JavaScript values are an inductive type; objects are the ordered lists
    of their own enumerable properties, in the order [Object.keys] reports
    them; exceptions are an explicit completion type, and every
    [try { ... } catch] of the source is a match on it. *)

From Stdlib Require Import List String Ascii ZArith NArith Bool Lia DecimalString.
From Stdlib Require DecimalZ DecimalPos Permutation.
Import ListNotations.
Open Scope string_scope.
Open Scope list_scope.

Set Implicit Arguments.

(* ================================================================== *)
(** ** JavaScript values *)

(** Numbers are modelled by integers (a sheet cell holding [0], [42], a
    row number); strings are byte strings. *)
Unset Elimination Schemes.
Inductive value : Type :=
| VUndefined
| VNull
| VBool (b : bool)
| VNum (n : Z)
| VStr (s : string)
| VArr (elems : list value)
| VObj (members : list (string * value)).
Set Elimination Schemes.

(** Own enumerable properties of an object, in property order. *)
Definition props (V : Type) : Type := list (string * V).

(** Completion of a piece of code: a value, or a thrown exception. *)
Inductive exn : Type := TypeError.

Inductive completion (A : Type) : Type :=
| Return (a : A)
| Throw (e : exn).
Arguments Return {A} a.
Arguments Throw {A} e.

Definition bind {A B : Type} (c : completion A) (f : A -> completion B)
  : completion B :=
  match c with
  | Return a => f a
  | Throw e => Throw e
  end.

Notation "x <- c ;; k" := (bind c (fun x => k))
  (at level 61, c at next level, right associativity).

(** [arr.forEach] / [reduce] with a callback that may throw. *)
Fixpoint foldM {A S : Type} (f : S -> A -> completion S) (l : list A) (s : S)
  : completion S :=
  match l with
  | [] => Return s
  | a :: l' => s' <- f s a ;; foldM f l' s'
  end.

(** *** Abstract operations of the language *)

Definition string_of_Z (n : Z) : string := NilZero.string_of_int (Z.to_int n).

Fixpoint join (sep : string) (l : list string) : string :=
  match l with
  | [] => ""
  | [s] => s
  | s :: l' => (s ++ sep ++ join sep l')%string
  end.

(** ToString; an array prints its elements joined by commas, with
    [undefined] and [null] elements printed as nothing. *)
Fixpoint ToString (v : value) : string :=
  match v with
  | VUndefined => "undefined"
  | VNull => "null"
  | VBool true => "true"
  | VBool false => "false"
  | VNum n => string_of_Z n
  | VStr s => s
  | VArr l =>
      join "," (map (fun x => match x with
                              | VUndefined | VNull => ""
                              | _ => ToString x
                              end) l)
  | VObj _ => "[object Object]"
  end.

(** ToBoolean: the falsy values are [undefined], [null], [false], [0], [""]. *)
Definition ToBoolean (v : value) : bool :=
  match v with
  | VUndefined | VNull => false
  | VBool b => b
  | VNum n => negb (n =? 0)%Z
  | VStr s => negb (s =? "")
  | VArr _ | VObj _ => true
  end.

(** [v !== undefined], [v !== null], [v !== ''] (strict comparisons). *)
Definition is_undefined (v : value) : bool :=
  match v with VUndefined => true | _ => false end.
Definition is_null (v : value) : bool :=
  match v with VNull => true | _ => false end.
Definition is_empty_string (v : value) : bool :=
  match v with VStr s => s =? "" | _ => false end.

(** [v === "text"]: only a string with the same characters. *)
Definition strict_eq_string (v : value) (s : string) : bool :=
  match v with VStr s' => s' =? s | _ => false end.

(** [v instanceof Object] on the values of the model. *)
Definition instanceOfObject (v : value) : bool :=
  match v with VArr _ | VObj _ => true | _ => false end.

(** *** Property keys and property order *)

Definition digit_of (c : ascii) : option N :=
  let n := N_of_ascii c in
  if ((48 <=? n) && (n <=? 57))%N then Some (n - 48)%N else None.

Fixpoint digits_value (acc : N) (s : string) : option N :=
  match s with
  | EmptyString => Some acc
  | String c s' =>
      match digit_of c with
      | Some d => digits_value (10 * acc + d)%N s'
      | None => None
      end
  end.

(** An array index is a canonical numeric string below 2^32 - 1; such keys
    come first, in ascending order, in the property order of an object. *)
Definition array_index (k : string) : option N :=
  match k with
  | EmptyString => None
  | _ =>
      match digits_value 0 k with
      | Some n =>
          if (string_of_Z (Z.of_N n) =? k) && (n <? 4294967295)%N
          then Some n else None
      | None => None
      end
  end.

Section Props.
Variable V : Type.

Fixpoint own_get (k : string) (ps : props V) : option V :=
  match ps with
  | [] => None
  | (k', v) :: ps' => if k =? k' then Some v else own_get k ps'
  end.

Definition has_own (k : string) (ps : props V) : bool :=
  match own_get k ps with Some _ => true | None => false end.

(** Assignment to a property that exists: its position is kept. *)
Fixpoint replace (k : string) (v : V) (ps : props V) : props V :=
  match ps with
  | [] => []
  | (k', v') :: ps' =>
      if k =? k' then (k', v) :: ps' else (k', v') :: replace k v ps'
  end.

Fixpoint insert_index (n : N) (k : string) (v : V) (ps : props V) : props V :=
  match ps with
  | [] => [(k, v)]
  | (k', v') :: ps' =>
      match array_index k' with
      | Some m => if (m <? n)%N then (k', v') :: insert_index n k v ps'
                  else (k, v) :: ps
      | None => (k, v) :: ps
      end
  end.

(** Creation of a property: after the smaller array indices when the key
    is an array index, last otherwise. *)
Definition define_new (k : string) (v : V) (ps : props V) : props V :=
  match array_index k with
  | Some n => insert_index n k v ps
  | None => ps ++ [(k, v)]
  end.

(** CreateDataProperty, and assignment once the key is known not to be
    intercepted by the prototype. *)
Definition own_set (k : string) (v : V) (ps : props V) : props V :=
  if has_own k ps then replace k v ps else define_new k v ps.

Definition Object_keys (ps : props V) : list string := map fst ps.
Definition Object_values (ps : props V) : list V := map snd ps.
End Props.

(** The property names every ordinary object inherits from
    [Object.prototype] (V8 runtime): a lookup of one of them on an object
    that does not own it yields a built-in, not [undefined]. *)
Definition Object_prototype_names : list string :=
  [ "constructor"; "__defineGetter__"; "__defineSetter__"; "hasOwnProperty";
    "__lookupGetter__"; "__lookupSetter__"; "isPrototypeOf";
    "propertyIsEnumerable"; "toString"; "valueOf"; "__proto__";
    "toLocaleString" ].

Definition inherited (k : string) : bool :=
  existsb (String.eqb k) Object_prototype_names.

(** [o[k]] on an ordinary object: own property, inherited built-in, or
    [undefined]. *)
Inductive lookup (V : Type) : Type :=
| Own (v : V)
| Builtin (name : string)
| Missing.
Arguments Own {V} v.
Arguments Builtin {V} name.
Arguments Missing {V}.

Definition Get {V : Type} (k : string) (ps : props V) : lookup V :=
  match own_get k ps with
  | Some v => Own v
  | None => if inherited k then Builtin k else Missing
  end.

(** An object under construction by assignments [o[k] = v].  Assigning
    ["__proto__"] to an object that does not own that key runs the setter
    inherited from [Object.prototype]: no property is created, and the
    prototype changes when [v] is an object or [null].  [proto_setter]
    records whether that setter is still reachable from the object. *)
Record object : Type := mkObject {
  own : props value;
  proto_setter : bool
}.

Definition empty_object : object := mkObject [] true.

Definition obj_set (k : string) (v : value) (o : object) : object :=
  if has_own k (own o) then mkObject (replace k v (own o)) (proto_setter o)
  else if (k =? "__proto__") && proto_setter o then
    mkObject (own o)
      (match v with
       | VNull => false
       | VObj ps => negb (has_own "__proto__" ps)
       | _ => true
       end)
  else mkObject (define_new k v (own o)) (proto_setter o).

(** [Object.fromEntries(pairs)]: CreateDataProperty per pair, key converted
    with ToString. *)
Definition entry_step (o : props value) (kv : value * value) : props value :=
  own_set (ToString (fst kv)) (snd kv) o.

Definition Object_fromEntries (pairs : list (value * value)) : props value :=
  fold_left entry_step pairs [].

(** The object a collection's rows become (context.js, line 98). *)
Definition collection_object (rows : list (value * value)) : value :=
  VObj (Object_fromEntries rows).

(** [Object.assign(target, source)]: an assignment per own property of
    the source, in property order. *)
Definition assign_step (o : object) (kv : string * value) : object :=
  obj_set (fst kv) (snd kv) o.

Definition Object_assign (target : object) (source : props value) : object :=
  fold_left assign_step source target.

Definition index_key (i : nat) : string := string_of_Z (Z.of_nat i).

(** [Object.keys(v)] and [Object.values(v)] of a value. *)
Definition keys_of (v : value) : list string :=
  match v with
  | VObj ps => Object_keys ps
  | VArr l => map index_key (seq 0 (List.length l))
  | VStr s => map index_key (seq 0 (String.length s))
  | _ => []
  end.

Definition char_value (c : ascii) : value := VStr (String c EmptyString).

Definition values_of (v : value) : list value :=
  match v with
  | VObj ps => Object_values ps
  | VArr l => l
  | VStr s => map char_value (list_ascii_of_string s)
  | _ => []
  end.

(* ================================================================== *)
(** ** config.js *)

Record config : Type := mkConfig {
  WEBHOOKS : props string;
  DEBUG : bool
}.

Definition CONFIG : config :=
  mkConfig
    [ ("GROOM_EPICS", "https://hook.eu2.make.com/rl83vjk9x0iad1avisatjk9rok27wgpy");
      ("GROOM_USER_STORIES_AND_TASKS", "");
      ("GROOM_SUBTASKS", "");
      ("ESTIMATE_SUBTASKS", "") ]
    false.

(** What [getWebhookUrl] hands back: a configured URL, [null], or the
    built-in that [CONFIG.WEBHOOKS[operation]] reaches through the
    prototype of the [WEBHOOKS] object. *)
Inductive webhook : Type :=
| Url (u : string)
| Null
| BuiltinObject (name : string).

(** [return CONFIG.WEBHOOKS[operation] || null;] on a configuration whose
    [WEBHOOKS] is an object of strings (the [catch] is then never
    entered). *)
Definition getWebhookUrl (cfg : config) (operation : string) : webhook :=
  match Get operation (WEBHOOKS cfg) with
  | Own u => if u =? "" then Null else Url u
  | Builtin name => BuiltinObject name
  | Missing => Null
  end.

(* ================================================================== *)
(** ** context.js *)

Section Context.
(** The host's [JSON.parse], applied to a string; [None] when it throws
    a SyntaxError. *)
Variable JSON_parse : string -> option value.

(** [try { return JSON.parse(value); } catch (e) { return value; }] *)
Definition parseValue (v : value) : value :=
  match JSON_parse (ToString v) with
  | Some parsed => parsed
  | None => v
  end.

Definition batchParseValues (values : list value) : list value :=
  map (fun v => match JSON_parse (ToString v) with
                | Some parsed => parsed
                | None => v
                end) values.

(** [data.slice(1)]: only an array has [slice] and a result with
    [forEach]. *)
Definition slice1 (data : value) : completion (list value) :=
  match data with
  | VArr rows => Return (tl rows)
  | _ => Throw TypeError
  end.

(** The iteration behind [const [collection, , , key, , , value] = row]. *)
Definition iterate (row : value) : completion (list value) :=
  match row with
  | VArr cells => Return cells
  | VStr s => Return (map char_value (list_ascii_of_string s))
  | _ => Throw TypeError
  end.

Definition cell (i : nat) (cells : list value) : value := nth i cells VUndefined.

(** [key && value !== undefined && value !== ''] *)
Definition guard (key val : value) : bool :=
  ToBoolean key && negb (is_undefined val) && negb (is_empty_string val).

(** State of the scan: [grouped] and [nonCollectionRows]. *)
Definition staged : Type :=
  (props (list (value * value)) * list (value * value))%type.

(** Body of the [forEach] callback (lines 84-94). *)
Definition scan_row (st : staged) (row : value) : completion staged :=
  cells <- iterate row ;;
  let collection := cell 0 cells in
  let key := cell 3 cells in
  let val := cell 6 cells in
  let '(grouped, nonCollectionRows) := st in
  if guard key val then
    if ToBoolean collection then
      let c := ToString collection in
      match Get c grouped with
      | Own rows => Return (own_set c (rows ++ [(key, val)]) grouped, nonCollectionRows)
      | Builtin _ => Throw TypeError
      | Missing => Return (own_set c [(key, val)] grouped, nonCollectionRows)
      end
    else Return (grouped, nonCollectionRows ++ [(key, val)])
  else Return st.

Definition scan (rows : list value) : completion staged :=
  foldM scan_row rows ([], []).

(** Lines 96-102: one object per collection, then the flat pairs. *)
Definition materialize (st : staged) : object :=
  let '(grouped, nonCollectionRows) := st in
  let result :=
    fold_left (fun res cr => obj_set (fst cr) (collection_object (snd cr)) res)
              grouped empty_object in
  Object_assign result (Object_fromEntries nonCollectionRows).

(** Lines 105-107: [Object.values(result).flatMap(...)]. *)
Definition allValues (result : props value) : list value :=
  flat_map (fun obj => if instanceOfObject obj then values_of obj else [obj])
           (Object_values result).

(** [target[subKey] = v] on a value that is an object or an array. *)
Fixpoint update_nth (i : nat) (v : value) (l : list value) : list value :=
  match i, l with
  | O, [] => [v]
  | O, _ :: l' => v :: l'
  | S i', [] => VUndefined :: update_nth i' v []
  | S i', x :: l' => x :: update_nth i' v l'
  end.

Definition set_member (subKey : string) (v : value) (target : value) : value :=
  match target with
  | VObj ps => VObj (own_set subKey v ps)
  | VArr l =>
      match array_index subKey with
      | Some n => VArr (update_nth (N.to_nat n) v l)
      | None => target
      end
  | _ => target
  end.

(** Lines 111-120: write the parsed values back by a running index. *)
Definition assign_sub (parsedValues : list value) (st : value * nat)
           (subKey : string) : value * nat :=
  let '(obj, index) := st in
  (set_member subKey (nth index parsedValues VUndefined) obj, S index).

Definition assign_key (parsedValues : list value) (st : props value * nat)
           (key : string) : props value * nat :=
  let '(result, index) := st in
  let obj := match own_get key result with Some o => o | None => VUndefined end in
  if instanceOfObject obj then
    let '(obj', index') :=
      fold_left (assign_sub parsedValues) (keys_of obj) (obj, index) in
    (own_set key obj' result, index')
  else (own_set key (nth index parsedValues VUndefined) result, S index).

Definition write_back (result : props value) : props value :=
  let parsedValues := batchParseValues (allValues result) in
  fst (fold_left (assign_key parsedValues) (Object_keys result) (result, O)).

(** The [try] block of [createContextJSON]. *)
Definition createContextJSON_try (data : value) : completion value :=
  rows <- slice1 data ;;
  st <- scan rows ;;
  Return (VObj (write_back (own (materialize st)))).

(** [createContextJSON]: the [catch] returns [{}]. *)
Definition createContextJSON (data : value) : value :=
  match createContextJSON_try data with
  | Return result => result
  | Throw _ => VObj []
  end.
End Context.

(* ================================================================== *)
(** ** The Epics module *)

(** The edited range, as the trigger reads it: [range.getColumn()] and
    [range.getValue()]. *)
Record range : Type := mkRange {
  getColumn : Z;
  getValue : value
}.

(** [range.getColumn() === 10 && range.getValue() === "Groom EPIC"] *)
Definition isExtractTodoSummariesTrigger (r : range) : bool :=
  (getColumn r =? 10)%Z && strict_eq_string (getValue r) "Groom EPIC".

(** [row[index]] *)
Definition index_get (row : value) (index : nat) : completion value :=
  match row with
  | VUndefined | VNull => Throw TypeError
  | VArr l => Return (nth index l VUndefined)
  | VStr s => Return (match String.get index s with
                      | Some c => char_value c
                      | None => VUndefined
                      end)
  | VObj ps => Return (match own_get (index_key index) ps with
                       | Some v => v
                       | None => VUndefined
                       end)
  | VBool _ | VNum _ => Return VUndefined
  end.

(** The [reduce] callback: [obj[header] = row[index]; return obj;] *)
Definition getRowData_step (row : value) (st : object * nat) (header : value)
  : completion (object * nat) :=
  let '(obj, index) := st in
  v <- index_get row index ;;
  Return (obj_set (ToString header) v obj, S index).

Definition getRowData_try (headers row : value) : completion value :=
  match headers with
  | VArr hs =>
      st <- foldM (getRowData_step row) hs (empty_object, O) ;;
      Return (VObj (own (fst st)))
  | _ => Throw TypeError
  end.

Definition getRowData (headers row : value) : value :=
  match getRowData_try headers row with
  | Return obj => obj
  | Throw _ => VObj []
  end.

(** What the five metadata expressions evaluate to when an event is
    given: [e.source.getId()], [e.source.getActiveSheet().getName()],
    [e.range.getRow()], [Session.getActiveUser().getEmail()],
    [new Date().toISOString()]. *)
Record event : Type := mkEvent {
  source_id : string;
  active_sheet_name : string;
  range_row : Z;
  active_user_email : string;
  now_iso : string
}.

(** [Object.entries(data)] *)
Definition Object_entries (data : value) : completion (props value) :=
  match data with
  | VUndefined | VNull => Throw TypeError
  | VBool _ | VNum _ => Return []
  | _ => Return (combine (keys_of data) (values_of data))
  end.

(** [value !== null && value !== undefined && value !== ''] *)
Definition nonEmpty (v : value) : bool :=
  negb (is_null v) && negb (is_undefined v) && negb (is_empty_string v).

Definition metadata (e : option event) : props value :=
  match e with
  | Some ev =>
      [ ("gsheet_id", VStr (source_id ev));
        ("sheet_name_id", VStr (active_sheet_name ev));
        ("row_id", VNum (range_row ev));
        ("user_id", VStr (active_user_email ev));
        ("modify_time", VStr (now_iso ev)) ]
  | None => []
  end.

(** The [for ... of Object.entries(data)] loop filling [json.eventData]. *)
Definition eventData_step (eventData : object) (kv : string * value) : object :=
  if nonEmpty (snd kv) then obj_set (fst kv) (snd kv) eventData else eventData.

Definition createEpicsJSON_try (data contextData : value) (e : option event)
  : completion value :=
  entries <- Object_entries data ;;
  let eventData := fold_left eventData_step entries empty_object in
  Return (VObj ([ ("context", contextData); ("eventData", VObj (own eventData)) ]
                ++ metadata e)).

Definition createEpicsJSON (data contextData : value) (e : option event) : value :=
  match createEpicsJSON_try data contextData e with
  | Return json => json
  | Throw _ => VObj []
  end.

(* ================================================================== *)
(** ** A reader for JSON texts

    [json_parse] instantiates [JSON.parse] where examples are run: the
    JSON grammar with integer number literals and the two-character
    escapes.  The theorems below hold for every [JSON_parse]. *)

Definition is_ws (c : ascii) : bool :=
  let n := N_of_ascii c in
  ((n =? 32) || (n =? 9) || (n =? 10) || (n =? 13))%N.

Fixpoint skip_ws (s : string) : string :=
  match s with
  | String c s' => if is_ws c then skip_ws s' else s
  | EmptyString => s
  end.

Fixpoint read_literal (lit s : string) : option string :=
  match lit, s with
  | EmptyString, _ => Some s
  | String a lit', String b s' => if (a =? b)%char then read_literal lit' s' else None
  | _, _ => None
  end.

Fixpoint read_digits (acc : Z) (s : string) : Z * string :=
  match s with
  | String c s' =>
      match digit_of c with
      | Some d => read_digits (10 * acc + Z.of_N d)%Z s'
      | None => (acc, s)
      end
  | EmptyString => (acc, s)
  end.

Definition starts_fraction (s : string) : bool :=
  match s with
  | String c _ => ((c =? ".") || (c =? "e") || (c =? "E"))%char
  | EmptyString => false
  end.

Definition read_int (s : string) : option (Z * string) :=
  match s with
  | String c s' =>
      match digit_of c with
      | Some 0%N => if starts_fraction s' then None else Some (0%Z, s')
      | Some d =>
          let '(n, rest) := read_digits (Z.of_N d) s' in
          if starts_fraction rest then None else Some (n, rest)
      | None => None
      end
  | EmptyString => None
  end.

Definition read_number (s : string) : option (Z * string) :=
  match s with
  | String "-" s' =>
      match read_int s' with
      | Some (n, rest) => Some ((- n)%Z, rest)
      | None => None
      end
  | _ => read_int s
  end.

Definition unescape (c : ascii) : option ascii :=
  match c with
  | "034"%char => Some "034"%char
  | "\"%char => Some "\"%char
  | "/"%char => Some "/"%char
  | "b"%char => Some "008"%char
  | "f"%char => Some "012"%char
  | "n"%char => Some "010"%char
  | "r"%char => Some "013"%char
  | "t"%char => Some "009"%char
  | _ => None
  end.

(** The characters of a string literal, after its opening quote. *)
Fixpoint read_chars (s : string) : option (string * string) :=
  match s with
  | EmptyString => None
  | String c s' =>
      if (c =? "034")%char then Some (EmptyString, s')
      else if (c =? "\")%char then
        match s' with
        | String e s'' =>
            match unescape e, read_chars s'' with
            | Some c', Some (str, rest) => Some (String c' str, rest)
            | _, _ => None
            end
        | EmptyString => None
        end
      else if (N_of_ascii c <? 32)%N then None
      else match read_chars s' with
           | Some (str, rest) => Some (String c str, rest)
           | None => None
           end
  end.

Fixpoint read_value (fuel : nat) (s : string) : option (value * string) :=
  match fuel with
  | O => None
  | S fuel' =>
      match skip_ws s with
      | EmptyString => None
      | String c s' as t =>
          if (c =? "n")%char then
            option_map (pair VNull) (read_literal "null" t)
          else if (c =? "t")%char then
            option_map (pair (VBool true)) (read_literal "true" t)
          else if (c =? "f")%char then
            option_map (pair (VBool false)) (read_literal "false" t)
          else if (c =? "034")%char then
            match read_chars s' with
            | Some (str, rest) => Some (VStr str, rest)
            | None => None
            end
          else if (c =? "[")%char then
            match skip_ws s' with
            | String "]" rest => Some (VArr [], rest)
            | t' => match read_elements fuel' t' with
                    | Some (vs, rest) => Some (VArr vs, rest)
                    | None => None
                    end
            end
          else if (c =? "{")%char then
            match skip_ws s' with
            | String "}" rest => Some (VObj [], rest)
            | t' => match read_members fuel' t' with
                    | Some (ms, rest) =>
                        Some (VObj (fold_left (fun o kv => own_set (fst kv) (snd kv) o)
                                              ms []), rest)
                    | None => None
                    end
            end
          else
            match read_number t with
            | Some (n, rest) => Some (VNum n, rest)
            | None => None
            end
      end
  end

with read_elements (fuel : nat) (s : string) : option (list value * string) :=
  match fuel with
  | O => None
  | S fuel' =>
      match read_value fuel' s with
      | Some (v, rest) =>
          match skip_ws rest with
          | String "," rest' =>
              match read_elements fuel' rest' with
              | Some (vs, rest'') => Some (v :: vs, rest'')
              | None => None
              end
          | String "]" rest' => Some ([v], rest')
          | _ => None
          end
      | None => None
      end
  end

with read_members (fuel : nat) (s : string)
  : option (list (string * value) * string) :=
  match fuel with
  | O => None
  | S fuel' =>
      match skip_ws s with
      | String "034"%char s' =>
          match read_chars s' with
          | Some (k, rest) =>
              match skip_ws rest with
              | String ":" rest' =>
                  match read_value fuel' rest' with
                  | Some (v, rest'') =>
                      match skip_ws rest'' with
                      | String "," r =>
                          match read_members fuel' r with
                          | Some (ms, r') => Some ((k, v) :: ms, r')
                          | None => None
                          end
                      | String "}" r => Some ([(k, v)], r)
                      | _ => None
                      end
                  | None => None
                  end
              | _ => None
              end
          | None => None
          end
      | _ => None
      end
  end.

Definition json_parse (text : string) : option value :=
  match read_value (2 * String.length text + 2) text with
  | Some (v, rest) =>
      match skip_ws rest with
      | EmptyString => Some v
      | _ => None
      end
  | None => None
  end.

(* ================================================================== *)
(** ** Typed inputs and the reference reading of a grid *)

(** A sheet cell: text, number, boolean, or one of the two absent
    markers. *)
Inductive scalar : Type :=
| SUndefined
| SNull
| SBool (b : bool)
| SNum (n : Z)
| SStr (s : string).

Definition scalar_value (c : scalar) : value :=
  match c with
  | SUndefined => VUndefined
  | SNull => VNull
  | SBool b => VBool b
  | SNum n => VNum n
  | SStr s => VStr s
  end.

(** A grid: rows of cells, row 0 being the header. *)
Definition grid : Type := list (list scalar).

Definition row_value (r : list scalar) : value := VArr (map scalar_value r).
Definition grid_value (g : grid) : value := VArr (map row_value g).

(** The three columns the transformer reads. *)
Definition collection_key (r : list scalar) : value := cell 0 (map scalar_value r).
Definition entry_key (r : list scalar) : value := cell 3 (map scalar_value r).
Definition entry_value (r : list scalar) : value := cell 6 (map scalar_value r).

Definition kept (r : list scalar) : bool := guard (entry_key r) (entry_value r).
Definition bare (r : list scalar) : bool := negb (ToBoolean (collection_key r)).
Definition in_collection (c : string) (r : list scalar) : bool :=
  ToBoolean (collection_key r) && (ToString (collection_key r) =? c).

Definition pair_of (r : list scalar) : value * value := (entry_key r, entry_value r).

(** The (entry key, entry value) pairs of the kept bare rows, and of the
    kept rows of collection [c], in row order. *)
Definition bare_pairs (rows : grid) : list (value * value) :=
  map pair_of (filter (fun r => kept r && bare r) rows).

Definition collection_pairs (c : string) (rows : grid) : list (value * value) :=
  map pair_of (filter (fun r => kept r && in_collection c r) rows).

(** No kept row names its collection after an inherited property. *)
Definition safe_row (r : list scalar) : bool :=
  negb (kept r && ToBoolean (collection_key r)
        && inherited (ToString (collection_key r))).

Definition safe_names (rows : grid) : bool := forallb safe_row rows.

(** The value the last pair with key [k] carries. *)
Fixpoint last_value (k : string) (pairs : list (value * value)) : option value :=
  match pairs with
  | [] => None
  | (k', v) :: rest =>
      match last_value k rest with
      | Some w => Some w
      | None => if ToString k' =? k then Some v else None
      end
  end.

Definition members (v : value) : props value :=
  match v with VObj ps => ps | _ => [] end.

Definition map_values {A B : Type} (f : A -> B) (ps : props A) : props B :=
  map (fun kv => (fst kv, f (snd kv))) ps.

Section Naive.
Variable JSON_parse : string -> option value.

(** Per-leaf coercion in place: [parseValue] on every value inside a
    collection object and on every top-level flat value. *)
Definition coerce_in_place (result : props value) : props value :=
  map_values (fun v => match v with
                       | VObj ps => VObj (map_values (parseValue JSON_parse) ps)
                       | _ => parseValue JSON_parse v
                       end) result.

Definition createContextJSON_naive (data : value) : value :=
  match (rows <- slice1 data ;; st <- scan rows ;;
         Return (VObj (coerce_in_place (own (materialize st))))) with
  | Return result => result
  | Throw _ => VObj []
  end.
End Naive.

(** What a collection's list holds after more pairs were pushed. *)
Definition merge_rows (o : option (list (value * value))) (l : list (value * value))
  : option (list (value * value)) :=
  match o with
  | Some a => Some (a ++ l)
  | None => match l with [] => None | _ => Some l end
  end.

(** A top-level value the write-back pass treats as the source intends:
    a collection object with distinct keys, or a value that is not an
    object. *)
Definition leafy (v : value) : Prop :=
  match v with
  | VObj ps => NoDup (map fst ps)
  | VArr _ => False
  | _ => True
  end.

(** The value that ends up under key [k] when a pair [(k, v)] is followed
    by the pairs [later]. *)
Definition latest (k : string) (later : list (value * value)) (v : value) : value :=
  match last_value k later with
  | Some w => w
  | None => v
  end.

(** [leaf] is what coercion makes of the cell [raw]. *)
Definition coerced (JSON_parse : string -> option value) (raw leaf : value) : Prop :=
  match JSON_parse (ToString raw) with
  | Some parsed => leaf = parsed
  | None => leaf = raw
  end.

(** The output of the transformer on a grid. *)
Definition transform (JSON_parse : string -> option value) (g : grid) : props value :=
  members (createContextJSON JSON_parse (grid_value g)).

(** The positional zip of headers and row values: header [i] with
    [row[i]], [undefined] past the end of the row. *)
Definition zip_from (i : nat) (hs row : list value) : list (value * value) :=
  combine hs (map (fun j => nth j row VUndefined) (seq i (List.length hs))).

Definition zip_row (hs row : list value) : list (value * value) := zip_from 0 hs row.

Definition keyed (kv : value * value) : string * value := (ToString (fst kv), snd kv).

Definition set_step (o : props value) (kv : string * value) : props value :=
  own_set (fst kv) (snd kv) o.

(** A value whose assignment to ["__proto__"] leaves the prototype alone. *)
Definition keeps_prototype (v : value) : bool :=
  match v with
  | VNull | VArr _ | VObj _ => false
  | _ => true
  end.

(** Emptiness as the specification words it: [undefined], [null] or the
    empty string. *)
Definition spec_empty (v : value) : bool :=
  is_undefined v || is_null v || is_empty_string v.

(** The mapper's contract as the specification words it: one output entry
    per header, each header holding the row value at its position. *)
Definition mapRow_contract (hs row : list value) : Prop :=
  let out := members (getRowData (VArr hs) (VArr row)) in
  List.length out = List.length hs
  /\ forall i, i < List.length hs ->
       own_get (ToString (nth i hs VUndefined)) out = Some (nth i row VUndefined).

(** *** Sample inputs *)

(** A JSON string literal: the text between double quotes. *)
Definition quoted (s : string) : string :=
  (String "034"%char s ++ String "034"%char EmptyString)%string.

Definition header_row : list scalar :=
  [SStr "Header A"; SStr "Header B"; SStr "Header C"; SStr "Header D";
   SStr "Header E"; SStr "Header F"; SStr "Header G"].

Definition data_row (collection key val : scalar) : list scalar :=
  [collection; SStr ""; SStr ""; key; SStr ""; SStr ""; val].

(** The grid of the example in the documentation of [createContextJSON]. *)
Definition documented_grid : grid :=
  [ header_row;
    data_row (SStr "Collection1") (SStr "Key1") (SStr "Value1");
    data_row (SStr "Collection1") (SStr "Key2") (SStr "Value2");
    data_row (SStr "") (SStr "Key3") (SStr "Value3");
    data_row (SStr "Collection2") (SStr "Key4")
             (SStr ("{" ++ quoted "nestedKey" ++ ": " ++ quoted "nestedValue" ++ "}")%string) ].

(** A grid with a repeated entry key, JSON literals and a row without
    value. *)
Definition literal_grid : grid :=
  [ header_row;
    data_row (SStr "Limits") (SStr "max") (SStr "41");
    data_row (SStr "") (SStr "enabled") (SStr "true");
    data_row (SStr "Limits") (SStr "skipped") (SStr "");
    data_row (SStr "Limits") (SStr "max") (SStr "42");
    data_row (SStr "") (SStr "owner") (SStr "Value3") ].

(** A collection and a bare entry that share their name. *)
Definition colliding_grid (name : string) : grid :=
  [ header_row;
    data_row (SStr name) (SStr "a") (SStr "1");
    data_row (SStr "") (SStr name) (SStr "2") ].

(** The rows agree on the three columns the transformer reads. *)
Definition same_entry (r r' : list scalar) : Prop :=
  collection_key r = collection_key r'
  /\ entry_key r = entry_key r'
  /\ entry_value r = entry_value r'.

(** A zipped pair whose header does not read ["__proto__"]. *)
Definition settable (kv : value * value) : bool :=
  negb (ToString (fst kv) =? "__proto__").

(* ================================================================== *)
(** ** The cache and the edit handlers

    The spreadsheet service, the script cache and the HTTP client are
    modelled by what their calls return and by the state they keep: a
    spreadsheet by its id and its sheets, a sheet by the values of its
    data range and its last row, the cache by the entries put into it
    (expiry is not modelled: an expired entry is an absent one), the HTTP
    client by the list of requests handed to [UrlFetchApp.fetch].  The
    lines written to [Logger] are not modelled.  A [try] body is an
    [option]: [None] when it throws. *)

Record sheet : Type := mkSheet {
  getValues : value;        (* [sheet.getDataRange().getValues()] *)
  getLastRow : Z            (* [sheet.getLastRow()] *)
}.

Record spreadsheet : Type := mkSpreadsheet {
  getId : string;
  getSheetByName : string -> option sheet
}.

(** [contextData_${spreadsheet.getId()}_${lastRow}]; a spreadsheet without
    a Context sheet makes [contextSheet.getLastRow()] throw. *)
Definition getCacheKey (ss : spreadsheet) : option string :=
  match getSheetByName ss "Context" with
  | Some contextSheet =>
      Some ("contextData_" ++ getId ss ++ "_"
            ++ string_of_Z (getLastRow contextSheet))%string
  | None => None
  end.

(** A cache entry: the text and the expiration passed to [put], if any. *)
Definition cache : Type := list (string * (string * option Z)).

(** [cache.get(key)]: the text last put under the key, or [null]. *)
Definition cache_get (key : string) (c : cache) : option string :=
  option_map fst (own_get key c).

(** [getSheetData]: the values of the sheet, [null] when the sheet is
    missing (the [throw] is caught in place). *)
Definition getSheetData (activeSpreadsheet : spreadsheet) (sheetName : string)
  : value :=
  match getSheetByName activeSpreadsheet sheetName with
  | Some sh => getValues sh
  | None => VNull
  end.

(** An edit event with what the handlers read from it and around it. *)
Record edit : Type := mkEdit {
  edit_source : spreadsheet;       (* [e.source] *)
  edit_active : spreadsheet;       (* [SpreadsheetApp.getActiveSpreadsheet()] *)
  edit_sheet : string;             (* [e.source.getActiveSheet().getName()] *)
  edit_range : range;              (* [e.range]: column and value *)
  edit_row : Z;                    (* [e.range.getRow()] *)
  edit_headers : value;            (* row 1 of the active sheet, [getValues()[0]] *)
  edit_rowData : value;            (* the edited row, [getValues()[0]] *)
  edit_user : string;              (* [Session.getActiveUser().getEmail()] *)
  edit_time : string               (* [new Date().toISOString()] *)
}.

Definition event_of (e : edit) : event :=
  mkEvent (getId (edit_source e)) (edit_sheet e) (edit_row e)
          (edit_user e) (edit_time e).

(** What the handlers change: the script cache and the requests sent. *)
Record world : Type := mkWorld {
  script_cache : cache;
  requests : list (string * string)      (* url, payload *)
}.

Section Handlers.
(** [JSON.parse], [JSON.stringify], and whether the cache service takes a
    key and a text ([put] throws when it does not). *)
Variable JSON_parse : string -> option value.
Variable JSON_stringify : value -> string.
Variable accepts : string -> string -> bool.

Definition cache_put (key text : string) (expiration : option Z) (c : cache)
  : option cache :=
  if accepts key text then Some ((key, (text, expiration)) :: c) else None.

(** [handleContextEdit] (context.js, lines 10-22). *)
Definition handleContextEdit (activeSpreadsheet source : spreadsheet) (c : cache)
  : cache :=
  let data := getSheetData activeSpreadsheet "Context" in
  let json := createContextJSON JSON_parse data in
  match getCacheKey source with
  | Some cacheKey =>
      match cache_put cacheKey (JSON_stringify json) None c with
      | Some c' => c'
      | None => c
      end
  | None => c
  end.

(** The branch [if (!contextData)] of [getContextData] (lines 74-78). *)
Definition populate (ss : spreadsheet) (cacheKey : string) (c : cache)
  : option (value * cache) :=
  match getSheetByName ss "Context" with
  | Some contextSheet =>
      let contextData := createContextJSON JSON_parse (getValues contextSheet) in
      match cache_put cacheKey (JSON_stringify contextData) (Some 21600%Z) c with
      | Some c' => Some (contextData, c')
      | None => None
      end
  | None => None
  end.

Definition getContextData_try (ss : spreadsheet) (c : cache)
  : option (value * cache) :=
  match getCacheKey ss with
  | Some cacheKey =>
      match cache_get cacheKey c with
      | Some text =>
          if text =? "" then populate ss cacheKey c
          else match JSON_parse text with
               | Some contextData => Some (contextData, c)
               | None => None
               end
      | None => populate ss cacheKey c
      end
  | None => None
  end.

(** [getContextData]: the [catch] returns [{}]. *)
Definition getContextData (ss : spreadsheet) (c : cache) : value * cache :=
  match getContextData_try ss c with
  | Some r => r
  | None => (VObj [], c)
  end.

(** [sendToWebhook]: one call of [UrlFetchApp.fetch] when a URL is
    configured for [GROOM_EPICS], none otherwise; what the call answers
    only reaches the log.  ([GROOM_EPICS] is not an inherited name, so
    the lookup never yields a built-in.) *)
Definition sendToWebhook (cfg : config) (json : value) (w : world) : world :=
  match getWebhookUrl cfg "GROOM_EPICS" with
  | Url webhookUrl =>
      mkWorld (script_cache w) (requests w ++ [(webhookUrl, JSON_stringify json)])
  | Null => w
  | BuiltinObject _ => w
  end.

(** [handleEpicsEdit] (Epics module, lines 20-37). *)
Definition handleEpicsEdit (cfg : config) (e : edit) (w : world) : world :=
  if isExtractTodoSummariesTrigger (edit_range e) then
    let rowData := getRowData (edit_headers e) (edit_rowData e) in
    let '(contextData, c') := getContextData (edit_source e) (script_cache w) in
    let json := createEpicsJSON rowData contextData (Some (event_of e)) in
    sendToWebhook cfg json (mkWorld c' (requests w))
  else w.

(** [handleEdit]: the route by sheet name. *)
Definition handleEdit (cfg : config) (e : edit) (w : world) : world :=
  if edit_sheet e =? "Context" then
    mkWorld (handleContextEdit (edit_active e) (edit_source e) (script_cache w))
            (requests w)
  else if edit_sheet e =? "Epics" then handleEpicsEdit cfg e w
  else w.
End Handlers.

(** *** A writer of JSON texts and sample surroundings

    [json_text] instantiates [JSON.stringify] where examples are run
    (objects, arrays, integers, booleans, [null], strings with the
    two-character escapes). *)

Definition escape_char (c : ascii) : string :=
  let n := N_of_ascii c in
  if (n =? 34)%N then String "\" (String "034"%char EmptyString)
  else if (n =? 92)%N then "\\"
  else if (n =? 8)%N then "\b"
  else if (n =? 12)%N then "\f"
  else if (n =? 10)%N then "\n"
  else if (n =? 13)%N then "\r"
  else if (n =? 9)%N then "\t"
  else String c EmptyString.

Fixpoint escape (s : string) : string :=
  match s with
  | EmptyString => EmptyString
  | String c s' => (escape_char c ++ escape s')%string
  end.

Fixpoint json_text (v : value) : string :=
  match v with
  | VUndefined | VNull => "null"
  | VBool true => "true"
  | VBool false => "false"
  | VNum n => string_of_Z n
  | VStr s => quoted (escape s)
  | VArr l => ("[" ++ join "," (map json_text l) ++ "]")%string
  | VObj ps =>
      ("{" ++ join ","
         (flat_map (fun kv => match kv with
                              | (_, VUndefined) => []
                              | (k, x) => [(quoted (escape k) ++ ":" ++ json_text x)%string]
                              end) ps)
       ++ "}")%string
  end.

Definition sample_sheet (g : grid) (lastRow : Z) : sheet :=
  mkSheet (grid_value g) lastRow.

(** A spreadsheet whose only sheet is the Context sheet. *)
Definition sample_spreadsheet (id : string) (context : sheet) : spreadsheet :=
  mkSpreadsheet id (fun name => if name =? "Context" then Some context else None).

Definition sample_edit (ss : spreadsheet) (sheetName : string) (r : range) : edit :=
  mkEdit ss ss sheetName r 2
         (VArr [VStr "Epic"; VStr "Owner"; VStr "Notes"])
         (VArr [VStr "Checkout"; VStr ""; VNum 0])
         "user@example.com" "2024-05-01T10:00:00.000Z".

(* ================================================================== *)
(** ** tests.js: the comparison the test cases use *)

Definition typeof (v : value) : string :=
  match v with
  | VUndefined => "undefined"
  | VBool _ => "boolean"
  | VNum _ => "number"
  | VStr _ => "string"
  | VNull | VArr _ | VObj _ => "object"
  end.

(** [a === b] on two values that are not objects. *)
Definition strict_equal (a b : value) : bool :=
  match a, b with
  | VUndefined, VUndefined => true
  | VNull, VNull => true
  | VBool x, VBool y => Bool.eqb x y
  | VNum x, VNum y => (x =? y)%Z
  | VStr x, VStr y => x =? y
  | _, _ => false
  end.

(** The own properties of a value, key by key. *)
Definition entries_of (v : value) : props value :=
  combine (keys_of v) (values_of v).

(** [isEquivalent] (tests.js, lines 99-121): same [typeof]; [===] unless
    both are objects; else as many keys, and every key of [a] is a key of
    [b] with an equivalent value. *)
Fixpoint isEquivalent (a b : value) {struct a} : bool :=
  (typeof a =? typeof b)
  && match a with
     | VNull => is_null b
     | VArr l =>
         negb (is_null b)
         && (List.length l =? List.length (entries_of b))%nat
         && (fix every (i : nat) (l : list value) {struct l} : bool :=
               match l with
               | [] => true
               | va :: l' =>
                   match own_get (index_key i) (entries_of b) with
                   | Some vb => isEquivalent va vb
                   | None => false
                   end && every (S i) l'
               end) O l
     | VObj ps =>
         negb (is_null b)
         && (List.length ps =? List.length (entries_of b))%nat
         && (fix every (ps : list (string * value)) {struct ps} : bool :=
               match ps with
               | [] => true
               | (key, va) :: ps' =>
                   match own_get key (entries_of b) with
                   | Some vb => isEquivalent va vb
                   | None => false
                   end && every ps'
               end) ps
     | _ => strict_equal a b
     end.

(** The outcome the first test case of [testCreateContextJSON] expects,
    with the keys in the order the test writes them. *)
Definition expected_in_test : value :=
  VObj [ ("Collection1", VObj [("Key1", VStr "Value1"); ("Key2", VStr "Value2")]);
         ("Key3", VStr "Value3");
         ("Collection2", VObj [("Key4", VObj [("nestedKey", VStr "nestedValue")])]) ].

(** A cache service with the documented quotas: keys of at most 250
    characters, texts of at most 100 KB. *)
Definition within_quota (key text : string) : bool :=
  (N.of_nat (String.length key) <=? 250)%N
  && (N.of_nat (String.length text) <=? 102400)%N.

Definition documented_spreadsheet : spreadsheet :=
  sample_spreadsheet "sheet-1" (sample_sheet documented_grid 5).

(** The same spreadsheet after its Context sheet was rewritten in place:
    other values, same last row. *)
Definition rewritten_spreadsheet : spreadsheet :=
  sample_spreadsheet "sheet-1" (sample_sheet literal_grid 5).

Definition other_spreadsheet : spreadsheet :=
  sample_spreadsheet "sheet-2" (sample_sheet literal_grid 5).

Definition trigger_range : range := mkRange 10 (VStr "Groom EPIC").

(* ================================================================== *)
(** ** Property lists *)

Unset Implicit Arguments.

Section PropsFacts.
Variable V : Type.
Implicit Types (ps : props V) (k : string) (v : V).

Lemma has_own_In k ps : has_own k ps = true <-> In k (map fst ps).
Proof.
  unfold has_own.
  induction ps as [|[k' v'] ps IH]; simpl.
  - split; [discriminate | tauto].
  - destruct (String.eqb_spec k k') as [->|Hne].
    + split; auto.
    + rewrite IH. split; [auto | intros [Heq|H]; [congruence | exact H]].
Qed.

Lemma has_own_false k ps : has_own k ps = false <-> ~ In k (map fst ps).
Proof.
  rewrite <- has_own_In. destruct (has_own k ps); split; congruence.
Qed.

Lemma own_get_None k ps : own_get k ps = None <-> ~ In k (map fst ps).
Proof.
  rewrite <- has_own_false. unfold has_own.
  destruct (own_get k ps); split; congruence.
Qed.

Lemma own_get_In k v ps : own_get k ps = Some v -> In (k, v) ps.
Proof.
  induction ps as [|[k' v'] ps IH]; simpl; [discriminate|].
  destruct (String.eqb_spec k k') as [->|Hne]; intros H.
  - injection H as ->. now left.
  - right. auto.
Qed.

Lemma In_own_get k v ps :
  NoDup (map fst ps) -> In (k, v) ps -> own_get k ps = Some v.
Proof.
  induction ps as [|[k' v'] ps IH]; simpl; [tauto|].
  intros Hnd [Heq|Hin].
  - injection Heq as -> ->. now rewrite String.eqb_refl.
  - inversion Hnd as [|? ? Hnotin Hnd']; subst.
    destruct (String.eqb_spec k k') as [->|Hne]; [|auto].
    exfalso. apply Hnotin. change k' with (fst (k', v)). now apply in_map.
Qed.

Lemma replace_keys k v ps : map fst (replace k v ps) = map fst ps.
Proof.
  induction ps as [|[k' v'] ps IH]; simpl; [reflexivity|].
  destruct (k =? k'); simpl; congruence.
Qed.

Lemma own_get_replace k k' v ps :
  own_get k (replace k' v ps)
  = if k =? k' then option_map (fun _ => v) (own_get k' ps) else own_get k ps.
Proof.
  induction ps as [|[k0 v0] ps IH]; simpl.
  - now destruct (k =? k').
  - destruct (String.eqb_spec k' k0) as [->|Hne]; simpl.
    + destruct (String.eqb_spec k k0); reflexivity.
    + destruct (String.eqb_spec k k0) as [->|Hne'].
      * destruct (String.eqb_spec k0 k'); [congruence | reflexivity].
      * exact IH.
Qed.

Lemma insert_index_In n k v ps k0 v0 :
  In (k0, v0) (insert_index n k v ps) <-> (k0, v0) = (k, v) \/ In (k0, v0) ps.
Proof.
  induction ps as [|[k' v'] ps IH]; simpl.
  - intuition congruence.
  - destruct (array_index k') as [m|].
    + destruct (m <? n)%N; simpl; [rewrite IH|]; intuition congruence.
    + simpl. intuition congruence.
Qed.

Lemma define_new_In k v ps k0 v0 :
  In (k0, v0) (define_new k v ps) <-> (k0, v0) = (k, v) \/ In (k0, v0) ps.
Proof.
  unfold define_new. destruct (array_index k).
  - apply insert_index_In.
  - rewrite in_app_iff. simpl. intuition congruence.
Qed.

Lemma insert_index_keys_In n k v ps k0 :
  In k0 (map fst (insert_index n k v ps)) <-> k0 = k \/ In k0 (map fst ps).
Proof.
  induction ps as [|[k' v'] ps IH]; simpl.
  - intuition congruence.
  - destruct (array_index k') as [m|].
    + destruct (m <? n)%N; simpl; [rewrite IH|]; intuition congruence.
    + simpl. intuition congruence.
Qed.

Lemma define_new_keys_In k v ps k0 :
  In k0 (map fst (define_new k v ps)) <-> k0 = k \/ In k0 (map fst ps).
Proof.
  unfold define_new. destruct (array_index k).
  - apply insert_index_keys_In.
  - rewrite map_app, in_app_iff. simpl. intuition congruence.
Qed.

Lemma insert_index_NoDup n k v ps :
  ~ In k (map fst ps) -> NoDup (map fst ps) ->
  NoDup (map fst (insert_index n k v ps)).
Proof.
  induction ps as [|[k' v'] ps IH]; simpl; intros Hk Hnd.
  - constructor; [tauto | constructor].
  - inversion Hnd as [|? ? Hnotin Hnd']; subst.
    assert (Hcons : NoDup (k :: k' :: map fst ps))
      by (constructor; [simpl; tauto | exact Hnd]).
    destruct (array_index k') as [m|]; [|exact Hcons].
    destruct (m <? n)%N; [|exact Hcons].
    simpl. constructor.
    + rewrite insert_index_keys_In. intuition congruence.
    + apply IH; tauto.
Qed.

Lemma define_new_NoDup k v ps :
  ~ In k (map fst ps) -> NoDup (map fst ps) ->
  NoDup (map fst (define_new k v ps)).
Proof.
  unfold define_new. intros Hk Hnd. destruct (array_index k).
  - now apply insert_index_NoDup.
  - rewrite map_app. simpl.
    apply NoDup_app; [exact Hnd | constructor; [tauto | constructor] |].
    intros x Hx [<-|[]]. tauto.
Qed.

Lemma own_get_insert_index n k k' v ps :
  ~ In k' (map fst ps) ->
  own_get k (insert_index n k' v ps) = if k =? k' then Some v else own_get k ps.
Proof.
  induction ps as [|[k0 v0] ps IH]; simpl; intros Hk.
  - reflexivity.
  - assert (Hhead : own_get k ((k', v) :: (k0, v0) :: ps)
                    = if k =? k' then Some v else if k =? k0 then Some v0 else own_get k ps)
      by reflexivity.
    destruct (array_index k0) as [m|]; [|exact Hhead].
    destruct (m <? n)%N; [|exact Hhead].
    simpl. rewrite IH by tauto.
    destruct (String.eqb_spec k k0) as [->|]; [|reflexivity].
    destruct (String.eqb_spec k0 k'); [|reflexivity].
    subst. tauto.
Qed.

Lemma own_get_app k ps qs :
  own_get k (ps ++ qs)
  = match own_get k ps with Some v => Some v | None => own_get k qs end.
Proof.
  induction ps as [|[k0 v0] ps IH]; simpl; [reflexivity|].
  now destruct (k =? k0).
Qed.

Lemma own_get_define_new k k' v ps :
  ~ In k' (map fst ps) ->
  own_get k (define_new k' v ps) = if k =? k' then Some v else own_get k ps.
Proof.
  intros Hk. unfold define_new. destruct (array_index k').
  - now apply own_get_insert_index.
  - rewrite own_get_app. simpl.
    destruct (String.eqb_spec k k') as [->|].
    + apply own_get_None in Hk. now rewrite Hk.
    + now destruct (own_get k ps).
Qed.

Lemma own_get_own_set k k' v ps :
  own_get k (own_set k' v ps) = if k =? k' then Some v else own_get k ps.
Proof.
  unfold own_set. destruct (has_own k' ps) eqn:Hhas.
  - rewrite own_get_replace. unfold has_own in Hhas.
    destruct (own_get k' ps); [reflexivity | discriminate].
  - apply own_get_define_new. now apply has_own_false.
Qed.

Lemma own_set_NoDup k v ps :
  NoDup (map fst ps) -> NoDup (map fst (own_set k v ps)).
Proof.
  intros Hnd. unfold own_set. destruct (has_own k ps) eqn:Hhas.
  - now rewrite replace_keys.
  - apply define_new_NoDup; [now apply has_own_false | exact Hnd].
Qed.

Lemma own_set_keys_In k v ps k0 :
  In k0 (map fst (own_set k v ps)) <-> k0 = k \/ In k0 (map fst ps).
Proof.
  unfold own_set. destruct (has_own k ps) eqn:Hhas.
  - rewrite replace_keys. apply has_own_In in Hhas.
    intuition congruence.
  - apply define_new_keys_In.
Qed.

Lemma replace_In k v ps k0 v0 :
  In (k0, v0) (replace k v ps) -> (k0, v0) = (k, v) \/ In (k0, v0) ps.
Proof.
  induction ps as [|[k' v'] ps IH]; simpl; [tauto|].
  destruct (String.eqb_spec k k') as [->|]; simpl; intuition congruence.
Qed.

Lemma own_set_In k v ps k0 v0 :
  In (k0, v0) (own_set k v ps) -> (k0, v0) = (k, v) \/ In (k0, v0) ps.
Proof.
  unfold own_set. destruct (has_own k ps).
  - apply replace_In.
  - apply define_new_In.
Qed.

(** Assignment to the key of a known entry touches that entry alone. *)
Lemma own_set_middle k v v' ps qs :
  ~ In k (map fst ps) ->
  own_set k v' (ps ++ (k, v) :: qs) = ps ++ (k, v') :: qs.
Proof.
  intros Hk. unfold own_set.
  assert (Hhas : has_own k (ps ++ (k, v) :: qs) = true).
  { apply has_own_In. rewrite map_app, in_app_iff. right. now left. }
  rewrite Hhas. clear Hhas.
  induction ps as [|[k0 v0] ps IH]; simpl.
  - now rewrite String.eqb_refl.
  - simpl in Hk. destruct (String.eqb_spec k k0) as [->|]; [tauto|].
    f_equal. apply IH. tauto.
Qed.

Lemma own_get_middle k v ps qs :
  ~ In k (map fst ps) -> own_get k (ps ++ (k, v) :: qs) = Some v.
Proof.
  intros Hk. rewrite own_get_app. apply own_get_None in Hk. rewrite Hk.
  simpl. now rewrite String.eqb_refl.
Qed.
End PropsFacts.

(* ================================================================== *)
(** ** Objects built by assignment *)

Lemma obj_set_plain k v o :
  k <> "__proto__" ->
  obj_set k v o = mkObject (own_set k v (own o)) (proto_setter o).
Proof.
  intros Hk. unfold obj_set, own_set.
  destruct (has_own k (own o)); [reflexivity|].
  destruct (String.eqb_spec k "__proto__"); [contradiction | reflexivity].
Qed.

Lemma obj_set_cases k v o :
  own (obj_set k v o) = own o \/ own (obj_set k v o) = own_set k v (own o).
Proof.
  unfold obj_set, own_set. destruct (has_own k (own o)); [now right|].
  destruct ((k =? "__proto__") && proto_setter o); [now left | now right].
Qed.

Lemma obj_set_NoDup k v o :
  NoDup (map fst (own o)) -> NoDup (map fst (own (obj_set k v o))).
Proof.
  intros Hnd. destruct (obj_set_cases k v o) as [-> | ->];
    [exact Hnd | now apply own_set_NoDup].
Qed.

Lemma obj_set_In k v o k0 v0 :
  In (k0, v0) (own (obj_set k v o)) -> (k0, v0) = (k, v) \/ In (k0, v0) (own o).
Proof.
  destruct (obj_set_cases k v o) as [-> | ->]; [now right | apply own_set_In].
Qed.

Lemma fold_assign_NoDup l o :
  NoDup (map fst (own o)) -> NoDup (map fst (own (fold_left assign_step l o))).
Proof.
  revert o. induction l as [|kv l IH]; simpl; intros o Hnd; [exact Hnd|].
  apply IH. now apply obj_set_NoDup.
Qed.

Lemma fold_assign_In l o k v :
  In (k, v) (own (fold_left assign_step l o)) -> In (k, v) l \/ In (k, v) (own o).
Proof.
  revert o. induction l as [|[k1 v1] l IH]; simpl; intros o H; [now right|].
  apply IH in H. destruct H as [H|H]; [now left; right|].
  apply obj_set_In in H. simpl in H.
  destruct H as [H|H]; [left; left; congruence | now right].
Qed.

Lemma fold_assign_setter l o :
  ~ In "__proto__" (map fst l) ->
  proto_setter (fold_left assign_step l o) = proto_setter o.
Proof.
  revert o. induction l as [|[k1 v1] l IH]; simpl; intros o Hk; [reflexivity|].
  rewrite IH by tauto. unfold assign_step. simpl.
  rewrite obj_set_plain by (intros ->; tauto). reflexivity.
Qed.

(** Lookup in an object filled by a run of assignments with distinct
    keys: the key ["__proto__"] is never created, every other key holds
    what was assigned to it. *)
Lemma fold_assign_get l : forall o k,
  NoDup (map fst l) ->
  own_get "__proto__" (own o) = None ->
  proto_setter o = true \/ ~ In "__proto__" (map fst l) ->
  own_get k (own (fold_left assign_step l o))
  = if k =? "__proto__" then None
    else match own_get k l with
         | Some v => Some v
         | None => own_get k (own o)
         end.
Proof.
  induction l as [|[k1 v1] l IH]; simpl; intros o k Hnd Hown Hset.
  - destruct (String.eqb_spec k "__proto__") as [->|]; [exact Hown | reflexivity].
  - inversion Hnd as [|? ? Hnotin Hnd']; subst.
    unfold assign_step at 2. simpl.
    destruct (String.eqb_spec k1 "__proto__") as [->|Hk1].
    + (* the assignment is taken by the inherited setter *)
      destruct Hset as [Hset|Hset]; [|tauto].
      assert (Hskip : own (obj_set "__proto__" v1 o) = own o).
      { unfold obj_set, has_own. rewrite Hown, Hset. reflexivity. }
      rewrite IH; [| exact Hnd' | now rewrite Hskip | now right].
      rewrite Hskip.
      destruct (String.eqb_spec k "__proto__"); reflexivity.
    + rewrite obj_set_plain by exact Hk1.
      rewrite IH; simpl;
        [| exact Hnd'
         | rewrite own_get_own_set;
           destruct (String.eqb_spec "__proto__" k1); [congruence | exact Hown]
         | destruct Hset; [now left | right; tauto] ].
      destruct (String.eqb_spec k "__proto__"); [reflexivity|].
      rewrite own_get_own_set.
      destruct (String.eqb_spec k k1) as [->|]; [|reflexivity].
      apply own_get_None in Hnotin. now rewrite Hnotin.
Qed.

Lemma fold_entries_get pairs : forall o k,
  own_get k (fold_left entry_step pairs o)
  = match last_value k pairs with
    | Some w => Some w
    | None => own_get k o
    end.
Proof.
  induction pairs as [|[k1 v1] pairs IH]; simpl; intros o k; [reflexivity|].
  rewrite IH. destruct (last_value k pairs); [reflexivity|].
  unfold entry_step. simpl. rewrite own_get_own_set.
  rewrite String.eqb_sym. now destruct (ToString k1 =? k).
Qed.

Lemma fold_entries_NoDup pairs : forall o,
  NoDup (map fst o) -> NoDup (map fst (fold_left entry_step pairs o)).
Proof.
  induction pairs as [|kv pairs IH]; simpl; intros o Hnd; [exact Hnd|].
  apply IH. now apply own_set_NoDup.
Qed.

Lemma fold_entries_In pairs : forall o k v,
  In (k, v) (fold_left entry_step pairs o) ->
  (exists key, In (key, v) pairs) \/ In (k, v) o.
Proof.
  induction pairs as [|[k1 v1] pairs IH]; simpl; intros o k v H; [now right|].
  apply IH in H. destruct H as [[key H]|H]; [left; exists key; now right|].
  apply own_set_In in H. destruct H as [H|H]; [|now right].
  left. exists k1. left. simpl in H. congruence.
Qed.

Lemma fromEntries_get pairs k :
  own_get k (Object_fromEntries pairs) = last_value k pairs.
Proof.
  unfold Object_fromEntries. rewrite fold_entries_get. now destruct (last_value k pairs).
Qed.

Lemma fromEntries_NoDup pairs : NoDup (map fst (Object_fromEntries pairs)).
Proof. apply fold_entries_NoDup. constructor. Qed.

Lemma fromEntries_In pairs k v :
  In (k, v) (Object_fromEntries pairs) -> exists key, In (key, v) pairs.
Proof.
  intros H. apply fold_entries_In in H. destruct H as [H|[]]. exact H.
Qed.

Lemma own_get_map_values (A B : Type) (f : A -> B) (ps : props A) k :
  own_get k (map_values f ps) = option_map f (own_get k ps).
Proof.
  induction ps as [|[k0 v0] ps IH]; simpl; [reflexivity|].
  now destruct (k =? k0).
Qed.

Lemma map_values_keys (A B : Type) (f : A -> B) (ps : props A) :
  map fst (map_values f ps) = map fst ps.
Proof. unfold map_values. rewrite map_map. reflexivity. Qed.

Lemma last_value_app k ps qs :
  last_value k (ps ++ qs)
  = match last_value k qs with Some w => Some w | None => last_value k ps end.
Proof.
  induction ps as [|[k0 v0] ps IH]; simpl.
  - now destruct (last_value k qs).
  - rewrite IH. now destruct (last_value k qs).
Qed.

Lemma last_value_In k v pairs :
  last_value k pairs = Some v -> exists key, In (key, v) pairs /\ ToString key = k.
Proof.
  induction pairs as [|[k0 v0] pairs IH]; simpl; [discriminate|].
  destruct (last_value k pairs) as [w|].
  - intros H. injection H as ->. destruct IH as [key [Hin Hk]]; [reflexivity|].
    exists key. auto.
  - destruct (String.eqb_spec (ToString k0) k) as [<-|]; [|discriminate].
    intros H. injection H as ->. exists k0. auto.
Qed.

Lemma last_value_None k pairs :
  last_value k pairs = None <-> ~ In k (map (fun kv => ToString (fst kv)) pairs).
Proof.
  induction pairs as [|[k0 v0] pairs IH]; simpl; [tauto|].
  destruct (last_value k pairs) as [w|].
  - split; [discriminate|]. intros H. exfalso.
    assert (Hin : In k (map (fun kv => ToString (fst kv)) pairs)).
    { destruct (in_dec string_dec k (map (fun kv => ToString (fst kv)) pairs)) as [Hin|Hn];
        [exact Hin|]. apply IH in Hn. discriminate. }
    tauto.
  - destruct (String.eqb_spec (ToString k0) k) as [<-|Hne].
    + split; [discriminate | tauto].
    + split; [|reflexivity]. intros _ [H|H]; [congruence|].
      now apply IH in H.
Qed.

(* ================================================================== *)
(** ** The scan of the rows (lines 84-94) *)

Lemma scan_row_typed g f r :
  scan_row (g, f) (row_value r)
  = if kept r then
      if ToBoolean (collection_key r) then
        match Get (ToString (collection_key r)) g with
        | Own rows =>
            Return (own_set (ToString (collection_key r)) (rows ++ [pair_of r]) g, f)
        | Builtin _ => Throw TypeError
        | Missing => Return (own_set (ToString (collection_key r)) [pair_of r] g, f)
        end
      else Return (g, f ++ [pair_of r])
    else Return (g, f).
Proof. reflexivity. Qed.

Lemma bare_pairs_cons r rows :
  bare_pairs (r :: rows)
  = if kept r && bare r then pair_of r :: bare_pairs rows else bare_pairs rows.
Proof. unfold bare_pairs. simpl. now destruct (kept r && bare r). Qed.

Lemma collection_pairs_cons c r rows :
  collection_pairs c (r :: rows)
  = if kept r && in_collection c r then pair_of r :: collection_pairs c rows
    else collection_pairs c rows.
Proof. unfold collection_pairs. simpl. now destruct (kept r && in_collection c r). Qed.

Lemma bare_pairs_app rows rows' :
  bare_pairs (rows ++ rows') = bare_pairs rows ++ bare_pairs rows'.
Proof. unfold bare_pairs. now rewrite filter_app, map_app. Qed.

Lemma collection_pairs_app c rows rows' :
  collection_pairs c (rows ++ rows') = collection_pairs c rows ++ collection_pairs c rows'.
Proof. unfold collection_pairs. now rewrite filter_app, map_app. Qed.

Lemma merge_rows_nil o : merge_rows o [] = o.
Proof. destruct o; simpl; [now rewrite app_nil_r | reflexivity]. Qed.

Lemma scan_spec rows : forall g0 f0 g1 f1,
  foldM scan_row (map row_value rows) (g0, f0) = Return (g1, f1) ->
  f1 = f0 ++ bare_pairs rows
  /\ (forall c, own_get c g1 = merge_rows (own_get c g0) (collection_pairs c rows))
  /\ (NoDup (map fst g0) -> NoDup (map fst g1))
  /\ ((forall c, In c (map fst g0) -> inherited c = false) ->
      forall c, In c (map fst g1) -> inherited c = false).
Proof.
  induction rows as [|r rows IH]; intros g0 f0 g1 f1 H.
  - simpl in H. injection H as <- <-. rewrite app_nil_r.
    split; [reflexivity|]. split; [intros c; now rewrite merge_rows_nil|].
    split; auto.
  - simpl in H. rewrite scan_row_typed in H.
    rewrite bare_pairs_cons.
    assert (Hcp : forall c, collection_pairs c (r :: rows)
                            = if kept r && in_collection c r
                              then pair_of r :: collection_pairs c rows
                              else collection_pairs c rows)
      by (intros; apply collection_pairs_cons).
    unfold bare, in_collection in *.
    destruct (kept r); simpl in *.
    + destruct (ToBoolean (collection_key r)); simpl in *.
      * set (c0 := ToString (collection_key r)) in *.
        unfold Get in H.
        destruct (own_get c0 g0) as [rows0|] eqn:Hg0; simpl in H.
        -- apply IH in H. destruct H as (Hf & Hg & Hnd & Hinh).
           repeat split; [exact Hf | | |].
           ++ intros c. rewrite Hg, Hcp, own_get_own_set.
              destruct (String.eqb_spec c c0) as [->|Hne].
              ** rewrite String.eqb_refl, Hg0. simpl. now rewrite <- app_assoc.
              ** destruct (String.eqb_spec c0 c); [congruence | reflexivity].
           ++ intros Hnd0. apply Hnd. now apply own_set_NoDup.
           ++ intros Hinh0. apply Hinh. intros c Hc.
              apply own_set_keys_In in Hc. destruct Hc as [->|Hc]; [|auto].
              apply Hinh0. apply has_own_In. unfold has_own. now rewrite Hg0.
        -- destruct (inherited c0) eqn:Hc0; simpl in H; [discriminate|].
           apply IH in H. destruct H as (Hf & Hg & Hnd & Hinh).
           repeat split; [exact Hf | | |].
           ++ intros c. rewrite Hg, Hcp, own_get_own_set.
              destruct (String.eqb_spec c c0) as [->|Hne].
              ** rewrite String.eqb_refl, Hg0. reflexivity.
              ** destruct (String.eqb_spec c0 c); [congruence | reflexivity].
           ++ intros Hnd0. apply Hnd. now apply own_set_NoDup.
           ++ intros Hinh0. apply Hinh. intros c Hc.
              apply own_set_keys_In in Hc. destruct Hc as [->|Hc]; auto.
      * apply IH in H. destruct H as (Hf & Hg & Hnd & Hinh).
        repeat split; [| | exact Hnd | exact Hinh].
        -- rewrite Hf. now rewrite <- app_assoc.
        -- intros c. now rewrite Hg, Hcp.
    + apply IH in H. destruct H as (Hf & Hg & Hnd & Hinh).
      repeat split; [exact Hf | | exact Hnd | exact Hinh].
      intros c. now rewrite Hg, Hcp.
Qed.

Lemma scan_total rows : forall st,
  safe_names rows = true ->
  exists st', foldM scan_row (map row_value rows) st = Return st'.
Proof.
  induction rows as [|r rows IH]; intros [g f] Hsafe; simpl.
  - now eexists.
  - simpl in Hsafe. apply andb_true_iff in Hsafe. destruct Hsafe as [Hr Hsafe].
    rewrite scan_row_typed. unfold safe_row in Hr.
    destruct (kept r); simpl in *; [|now apply IH].
    destruct (ToBoolean (collection_key r)); simpl in *; [|now apply IH].
    unfold Get. destruct (own_get _ g); simpl; [now apply IH|].
    destruct (inherited _); [discriminate|]. simpl. now apply IH.
Qed.

(** A row that does not pass the guard leaves the scan state alone. *)
Lemma scan_skip rows r rows' st :
  kept r = false ->
  foldM scan_row (map row_value (rows ++ r :: rows')) st
  = foldM scan_row (map row_value (rows ++ rows')) st.
Proof.
  intros Hk. revert st. induction rows as [|r0 rows IH]; intros [g f]; simpl.
  - rewrite scan_row_typed, Hk. reflexivity.
  - destruct (scan_row (g, f) (row_value r0)) as [st'|e]; simpl; [apply IH | reflexivity].
Qed.

(* ================================================================== *)
(** ** Materialisation (lines 96-102) *)

Lemma materialize_unfold g f :
  materialize (g, f)
  = fold_left assign_step (Object_fromEntries f)
      (fold_left assign_step (map_values collection_object g) empty_object).
Proof.
  unfold materialize, Object_assign. f_equal.
  generalize empty_object. induction g as [|[c rows] g IH]; intros o; simpl;
    [reflexivity | apply IH].
Qed.

Lemma not_inherited_proto (g : props (list (value * value))) :
  (forall c, In c (map fst g) -> inherited c = false) ->
  ~ In "__proto__" (map fst (map_values collection_object g)).
Proof.
  intros Hinh Hin. rewrite map_values_keys in Hin. apply Hinh in Hin. discriminate.
Qed.

Lemma materialize_get g f k :
  NoDup (map fst g) ->
  (forall c, In c (map fst g) -> inherited c = false) ->
  own_get k (own (materialize (g, f)))
  = if k =? "__proto__" then None
    else match last_value k f with
         | Some v => Some v
         | None => option_map collection_object (own_get k g)
         end.
Proof.
  intros Hnd Hinh. rewrite materialize_unfold.
  pose proof (not_inherited_proto g Hinh) as Hproto.
  set (g' := map_values collection_object g) in *.
  assert (Hnd' : NoDup (map fst g')) by (unfold g'; now rewrite map_values_keys).
  assert (H1 : forall k0, own_get k0 (own (fold_left assign_step g' empty_object))
                          = if k0 =? "__proto__" then None
                            else match own_get k0 g' with
                                 | Some v => Some v
                                 | None => None
                                 end).
  { intros k0. apply fold_assign_get; [exact Hnd' | reflexivity | now left]. }
  rewrite fold_assign_get.
  - destruct (String.eqb_spec k "__proto__"); [reflexivity|].
    rewrite fromEntries_get. destruct (last_value k f); [reflexivity|].
    rewrite H1. destruct (String.eqb_spec k "__proto__"); [contradiction|].
    unfold g'. rewrite own_get_map_values. now destruct (own_get k g).
  - apply fromEntries_NoDup.
  - rewrite H1. reflexivity.
  - left. now rewrite fold_assign_setter.
Qed.

Lemma materialize_NoDup st : NoDup (map fst (own (materialize st))).
Proof.
  destruct st as [g f]. rewrite materialize_unfold.
  do 2 apply fold_assign_NoDup. constructor.
Qed.

Lemma materialize_In g f k v :
  In (k, v) (own (materialize (g, f))) ->
  (exists key, In (key, v) f) \/ (exists rows, v = collection_object rows).
Proof.
  rewrite materialize_unfold. intros H.
  apply fold_assign_In in H. destruct H as [H|H].
  - left. now apply fromEntries_In in H.
  - apply fold_assign_In in H. destruct H as [H|[]].
    right. unfold map_values in H. apply in_map_iff in H.
    destruct H as [[c rows] [Heq _]]. simpl in Heq. exists rows. congruence.
Qed.

(* ================================================================== *)
(** ** The batched coercion pass (lines 104-120) *)

Section WriteBack.
Variable JSON_parse : string -> option value.

Let P : value -> value := parseValue JSON_parse.
Let C (v : value) : value :=
  match v with
  | VObj ps => VObj (map_values P ps)
  | _ => P v
  end.

Lemma batchParseValues_map values :
  batchParseValues JSON_parse values = map P values.
Proof. reflexivity. Qed.

Lemma NoDup_keys_head (A : Type) (done todo : props A) k v :
  NoDup (map fst (done ++ (k, v) :: todo)) -> ~ In k (map fst done).
Proof.
  rewrite map_app. simpl. intros Hnd Hin.
  apply NoDup_remove_2 in Hnd. apply Hnd. rewrite in_app_iff. now left.
Qed.

(** The inner loop over the keys of one collection object. *)
Lemma assign_sub_fold todo : forall done pre post,
  NoDup (map fst (done ++ todo)) ->
  fold_left (assign_sub (pre ++ map P (map snd todo) ++ post)) (map fst todo)
            (VObj (done ++ todo), List.length pre)
  = (VObj (done ++ map_values P todo), List.length pre + List.length todo).
Proof.
  induction todo as [|[k x] todo IH]; intros done pre post Hnd; simpl.
  - now rewrite Nat.add_0_r.
  - rewrite nth_middle.
    rewrite own_set_middle by (eapply NoDup_keys_head; exact Hnd).
    specialize (IH (done ++ [(k, P x)]) (pre ++ [P x]) post).
    rewrite <- !app_assoc in IH. simpl in IH.
    rewrite length_app in IH. simpl in IH.
    rewrite Nat.add_1_r in IH. rewrite IH.
    + f_equal. lia.
    + rewrite map_app in *. simpl in *. exact Hnd.
Qed.

Lemma allValues_cons k v result :
  allValues ((k, v) :: result)
  = (if instanceOfObject v then values_of v else [v]) ++ allValues result.
Proof. reflexivity. Qed.

(** The outer loop over the top-level keys. *)
Lemma assign_key_fold todo : forall done pre post,
  NoDup (map fst (done ++ todo)) ->
  Forall (fun kv => leafy (snd kv)) todo ->
  fold_left (assign_key (pre ++ map P (allValues todo) ++ post)) (map fst todo)
            (done ++ todo, List.length pre)
  = (done ++ map_values C todo, List.length pre + List.length (allValues todo)).
Proof.
  induction todo as [|[k v] todo IH]; intros done pre post Hnd Hleafy.
  - simpl. now rewrite Nat.add_0_r.
  - inversion Hleafy as [|? ? Hv Hrest]; subst. simpl in Hv.
    pose proof (NoDup_keys_head _ _ _ _ _ Hnd) as Hk.
    rewrite allValues_cons.
    cbn [map fst fold_left]. unfold assign_key at 2.
    rewrite own_get_middle by exact Hk.
    destruct (instanceOfObject v) eqn:Hobj.
    + destruct v as [| | | | |l|ps]; try discriminate; [contradiction|].
      cbn [values_of keys_of]. unfold Object_values, Object_keys.
      rewrite map_app, <- app_assoc.
      pose proof (assign_sub_fold ps [] pre (map P (allValues todo) ++ post) Hv) as Hin.
      simpl in Hin. rewrite Hin. cbv beta iota.
      rewrite own_set_middle by exact Hk.
      specialize (IH (done ++ [(k, VObj (map_values P ps))])
                     (pre ++ map P (map snd ps)) post).
      rewrite <- !app_assoc in IH. cbn [app] in IH.
      rewrite length_app, length_map, length_map in IH.
      etransitivity;
        [apply IH; [rewrite map_app in *; simpl in *; exact Hnd | exact Hrest]|].
      rewrite length_app, length_map. f_equal. lia.
    + cbn [app map]. rewrite nth_middle.
      rewrite own_set_middle by exact Hk.
      specialize (IH (done ++ [(k, P v)]) (pre ++ [P v]) post).
      rewrite <- !app_assoc in IH. cbn [app] in IH.
      rewrite length_app in IH. cbn [List.length] in IH. rewrite Nat.add_1_r in IH.
      etransitivity;
        [apply IH; [rewrite map_app in *; simpl in *; exact Hnd | exact Hrest]|].
      simpl. f_equal.
      * f_equal. f_equal. unfold C. destruct v; try reflexivity; discriminate.
      * lia.
Qed.

(** With distinct keys throughout, the running index hands every leaf
    its own parsed value. *)
Lemma write_back_spec result :
  NoDup (map fst result) ->
  Forall (fun kv => leafy (snd kv)) result ->
  write_back JSON_parse result = coerce_in_place JSON_parse result.
Proof.
  intros Hnd Hleafy. unfold write_back.
  pose proof (assign_key_fold result [] [] [] Hnd Hleafy) as H.
  simpl in H. rewrite app_nil_r in H.
  match goal with
  | |- fst ?run = _ =>
      assert (Hrun : run = (map_values C result, List.length (allValues result)))
        by exact H
  end.
  rewrite Hrun. reflexivity.
Qed.
End WriteBack.

(* ================================================================== *)
(** ** The transformer on grids *)

Section Transform.
Variable JSON_parse : string -> option value.

Let P : value -> value := parseValue JSON_parse.

Lemma try_typed g :
  createContextJSON_try JSON_parse (grid_value g)
  = (st <- scan (map row_value (tl g)) ;;
     Return (VObj (write_back JSON_parse (own (materialize st))))).
Proof.
  unfold createContextJSON_try, grid_value. simpl.
  now destruct g.
Qed.

Lemma cell_scalar i r : instanceOfObject (cell i (map scalar_value r)) = false.
Proof.
  unfold cell.
  destruct (nth_in_or_default i (map scalar_value r) VUndefined) as [Hin | ->];
    [|reflexivity].
  apply in_map_iff in Hin. destruct Hin as [c [<- _]]. now destruct c.
Qed.

Lemma bare_pairs_scalar rows key v :
  In (key, v) (bare_pairs rows) -> instanceOfObject v = false.
Proof.
  unfold bare_pairs. intros H. apply in_map_iff in H.
  destruct H as [r [Heq _]]. injection Heq as _ <-. apply cell_scalar.
Qed.

Lemma not_object_leafy v : instanceOfObject v = false -> leafy v.
Proof. destruct v; simpl; intros H; try exact I; discriminate. Qed.

Lemma not_object_coerce v :
  instanceOfObject v = false ->
  match v with
  | VObj ps => VObj (map_values P ps)
  | _ => P v
  end = P v.
Proof. destruct v; simpl; intros H; try reflexivity; discriminate. Qed.

Lemma scan_typed rows gr fl :
  scan (map row_value rows) = Return (gr, fl) ->
  fl = bare_pairs rows
  /\ (forall c, own_get c gr = match collection_pairs c rows with
                              | [] => None
                              | ps => Some ps
                              end)
  /\ NoDup (map fst gr)
  /\ (forall c, In c (map fst gr) -> inherited c = false).
Proof.
  intros H. apply scan_spec in H. destruct H as (Hf & Hg & Hnd & Hinh).
  repeat split; [exact Hf | | apply Hnd; constructor | apply Hinh].
  - intros c. rewrite Hg. simpl. now destruct (collection_pairs c rows).
  - intros c [].
Qed.

Lemma materialize_leafy rows gr fl :
  scan (map row_value rows) = Return (gr, fl) ->
  Forall (fun kv => leafy (snd kv)) (own (materialize (gr, fl))).
Proof.
  intros H. apply scan_typed in H. destruct H as (-> & _).
  apply Forall_forall. intros [k v] Hin. simpl.
  apply materialize_In in Hin. destruct Hin as [[key Hin] | [ps ->]].
  - apply not_object_leafy. eapply bare_pairs_scalar. exact Hin.
  - simpl. apply fromEntries_NoDup.
Qed.

(** On a grid the staged pass and the per-leaf pass agree. *)
Lemma transform_normal g st :
  scan (map row_value (tl g)) = Return st ->
  createContextJSON JSON_parse (grid_value g)
  = VObj (coerce_in_place JSON_parse (own (materialize st))).
Proof.
  intros H. unfold createContextJSON. rewrite try_typed, H. simpl.
  destruct st as [gr fl]. f_equal.
  apply write_back_spec; [apply materialize_NoDup | eapply materialize_leafy; exact H].
Qed.

Lemma transform_failed g e :
  scan (map row_value (tl g)) = Throw e ->
  createContextJSON JSON_parse (grid_value g) = VObj [].
Proof.
  intros H. unfold createContextJSON. now rewrite try_typed, H.
Qed.

(** The entry the output holds under a top-level key. *)
Lemma transform_get g st k :
  scan (map row_value (tl g)) = Return st ->
  own_get k (transform JSON_parse g)
  = if k =? "__proto__" then None
    else match last_value k (bare_pairs (tl g)) with
         | Some v => Some (P v)
         | None =>
             match collection_pairs k (tl g) with
             | [] => None
             | ps => Some (VObj (map_values P (Object_fromEntries ps)))
             end
         end.
Proof.
  intros H. unfold transform. rewrite (transform_normal g st H). simpl.
  destruct st as [gr fl].
  destruct (scan_typed _ _ _ H) as (-> & Hg & Hnd & Hinh).
  unfold coerce_in_place. rewrite own_get_map_values.
  rewrite materialize_get by assumption.
  destruct (String.eqb_spec k "__proto__"); [reflexivity|].
  destruct (last_value k (bare_pairs (tl g))) as [v|] eqn:Hlast; simpl.
  - f_equal. apply not_object_coerce.
    apply last_value_In in Hlast. destruct Hlast as [key [Hin _]].
    eapply bare_pairs_scalar. exact Hin.
  - rewrite Hg. now destruct (collection_pairs k (tl g)).
Qed.

Lemma transform_failed_get g e k :
  scan (map row_value (tl g)) = Throw e ->
  own_get k (transform JSON_parse g) = None.
Proof.
  intros H. unfold transform. now rewrite (transform_failed g e H).
Qed.

Lemma coerced_parseValue raw : coerced JSON_parse raw (P raw).
Proof.
  unfold coerced, P, parseValue. now destruct (JSON_parse (ToString raw)).
Qed.
End Transform.

Lemma naive_typed JSON_parse g :
  createContextJSON_naive JSON_parse (grid_value g)
  = match scan (map row_value (tl g)) with
    | Return st => VObj (coerce_in_place JSON_parse (own (materialize st)))
    | Throw _ => VObj []
    end.
Proof.
  unfold createContextJSON_naive, grid_value. simpl.
  replace (tl (map row_value g)) with (map row_value (tl g)) by now destruct g.
  now destruct (scan (map row_value (tl g))).
Qed.

Lemma last_value_cons_same key v rest :
  last_value (ToString key) ((key, v) :: rest)
  = Some (latest (ToString key) rest v).
Proof.
  simpl. unfold latest. destruct (last_value (ToString key) rest); [reflexivity|].
  now rewrite String.eqb_refl.
Qed.

Lemma last_value_middle key v before after :
  last_value (ToString key) (before ++ (key, v) :: after)
  = Some (latest (ToString key) after v).
Proof. now rewrite last_value_app, last_value_cons_same. Qed.

Lemma scan_malformed_row row rows rows' : forall st,
  iterate row = Throw TypeError ->
  foldM scan_row (rows ++ row :: rows') st = Throw TypeError.
Proof.
  intros st Hrow. revert st. induction rows as [|r0 rows IH]; intros st; simpl.
  - unfold scan_row. now rewrite Hrow.
  - destruct (scan_row st r0) as [st'|[]]; simpl; [apply IH | reflexivity].
Qed.

(** A bare entry whose key is also a collection key takes the top-level
    slot, whenever the scan completes. *)
Lemma flat_entry_overwrites_collection JSON_parse g st k raw :
  scan (map row_value (tl g)) = Return st ->
  collection_pairs k (tl g) <> [] ->
  last_value k (bare_pairs (tl g)) = Some raw ->
  own_get k (transform JSON_parse g) = Some (parseValue JSON_parse raw).
Proof.
  intros Hscan Hcoll Hbare.
  rewrite (transform_get JSON_parse g st k Hscan), Hbare.
  destruct (String.eqb_spec k "__proto__") as [->|]; [|reflexivity].
  exfalso. destruct st as [gr fl].
  destruct (scan_typed _ _ _ Hscan) as (_ & Hg & _ & Hinh).
  specialize (Hg "__proto__").
  assert (Hin : In "__proto__" (map fst gr)).
  { apply has_own_In. unfold has_own. rewrite Hg.
    now destruct (collection_pairs "__proto__" (tl g)). }
  apply Hinh in Hin. discriminate.
Qed.

(* ================================================================== *)
(** ** The claims about the transformer *)

(** C1, as the code has it.  A data row is kept exactly when its entry key
    is truthy and its entry value is neither [undefined] nor the empty
    string.  A row that fails this guard is dropped: the output is that of
    the grid without the row.  A row that passes it is in the output,
    provided no kept row names its collection after a property inherited
    from [Object.prototype]: a bare row under its entry key, at top level
    (any key but ["__proto__"]); a row of a collection under its entry key,
    inside the collection's object (when no bare entry took the
    collection's slot).  The value held is the coerced entry value of the
    row, or of the last later row with the same key. *)
Theorem guard_decides_inclusion
  (JSON_parse : string -> option value)
  (hdr : list scalar) (before after : grid) (r : list scalar) :
  let rows := before ++ r :: after in
  let out := transform JSON_parse (hdr :: rows) in
  let k := ToString (entry_key r) in
  let c := ToString (collection_key r) in
  (guard (entry_key r) (entry_value r) = false ->
   createContextJSON JSON_parse (grid_value (hdr :: rows))
   = createContextJSON JSON_parse (grid_value (hdr :: before ++ after)))
  /\ (guard (entry_key r) (entry_value r) = true ->
      safe_names rows = true ->
      if ToBoolean (collection_key r) then
        last_value c (bare_pairs rows) = None ->
        exists ps,
          own_get c out = Some (VObj ps)
          /\ own_get k ps
             = Some (parseValue JSON_parse
                       (latest k (collection_pairs c after) (entry_value r)))
      else
        k <> "__proto__" ->
        own_get k out
        = Some (parseValue JSON_parse (latest k (bare_pairs after) (entry_value r)))).
Proof.
  intros rows out k c. split.
  - intros Hguard. unfold createContextJSON. rewrite !try_typed. simpl tl.
    unfold scan, rows. now rewrite scan_skip.
  - intros Hguard Hsafe.
    destruct (scan_total rows ([], []) Hsafe) as [st Hscan].
    assert (Hget : forall k0, own_get k0 out = _)
      by (intros k0; apply (transform_get JSON_parse (hdr :: rows) st k0 Hscan)).
    simpl tl in Hget. fold (kept r) in Hguard.
    destruct (ToBoolean (collection_key r)) eqn:Hcoll.
    + intros Hbare.
      assert (Hc : c <> "__proto__").
      { unfold rows, safe_names in Hsafe. rewrite forallb_app in Hsafe.
        apply andb_true_iff in Hsafe. destruct Hsafe as [_ Hsafe].
        simpl in Hsafe. apply andb_true_iff in Hsafe. destruct Hsafe as [Hr _].
        unfold safe_row in Hr. rewrite Hguard, Hcoll in Hr. simpl in Hr.
        fold c in Hr. intros Heq. rewrite Heq in Hr. discriminate. }
      assert (Hpairs : collection_pairs c rows
                       = collection_pairs c before ++ pair_of r :: collection_pairs c after).
      { unfold rows. rewrite collection_pairs_app, collection_pairs_cons.
        unfold in_collection. rewrite Hguard, Hcoll. fold c.
        now rewrite String.eqb_refl. }
      rewrite Hget, Hbare.
      destruct (String.eqb_spec c "__proto__"); [contradiction|].
      rewrite Hpairs.
      destruct (collection_pairs c before ++ pair_of r :: collection_pairs c after)
        as [|p ps] eqn:Hps; [now destruct (collection_pairs c before)|].
      eexists. split; [reflexivity|].
      rewrite own_get_map_values, fromEntries_get, <- Hps.
      unfold pair_of, k. now rewrite last_value_middle.
    + intros Hk. rewrite Hget.
      destruct (String.eqb_spec k "__proto__"); [contradiction|].
      assert (Hpairs : bare_pairs rows
                       = bare_pairs before ++ pair_of r :: bare_pairs after).
      { unfold rows. rewrite bare_pairs_app, bare_pairs_cons.
        unfold bare. now rewrite Hguard, Hcoll. }
      rewrite Hpairs. unfold pair_of, k. now rewrite last_value_middle.
Qed.

(** C3.  [createContextJSON] returns an object for every input value; when
    its [try] block throws, that object is [{}]; this is the case for
    [null], for [undefined], and for any array holding a row that cannot
    be destructured; an empty grid gives [{}] as well. *)
Theorem createContextJSON_never_raises
  (JSON_parse : string -> option value) (data : value) :
  (exists ps, createContextJSON JSON_parse data = VObj ps)
  /\ (forall e, createContextJSON_try JSON_parse data = Throw e ->
                createContextJSON JSON_parse data = VObj [])
  /\ createContextJSON JSON_parse VNull = VObj []
  /\ createContextJSON JSON_parse VUndefined = VObj []
  /\ createContextJSON JSON_parse (VArr []) = VObj []
  /\ (forall hdr rows row rows',
        iterate row = Throw TypeError ->
        createContextJSON JSON_parse (VArr (hdr :: rows ++ row :: rows')) = VObj []).
Proof.
  repeat split; try reflexivity.
  - unfold createContextJSON, createContextJSON_try.
    destruct (slice1 data) as [rows|]; simpl; [|now eexists].
    destruct (scan rows) as [st|]; simpl; now eexists.
  - intros e H. unfold createContextJSON. now rewrite H.
  - intros hdr rows row rows' Hrow.
    unfold createContextJSON, createContextJSON_try. simpl.
    unfold scan. now rewrite scan_malformed_row.
Qed.

(** C4.  Every leaf of the output is the coercion of the cell it comes
    from: the parsed value when [JSON.parse] accepts the cell's text, the
    cell itself when it does not.  A top-level flat value comes from the
    last kept bare row with that key; a value inside a collection object
    from the last kept row of the collection with that key. *)
Theorem leaves_are_coerced_cells
  (JSON_parse : string -> option value) (g : grid) (k : string) (leaf : value) :
  own_get k (transform JSON_parse g) = Some leaf ->
  match last_value k (bare_pairs (tl g)) with
  | Some raw => coerced JSON_parse raw leaf
  | None =>
      exists ps, leaf = VObj ps
        /\ forall k' leaf', own_get k' ps = Some leaf' ->
             exists raw, last_value k' (collection_pairs k (tl g)) = Some raw
                         /\ coerced JSON_parse raw leaf'
  end.
Proof.
  intros Hleaf.
  destruct (scan (map row_value (tl g))) as [st|e] eqn:Hscan;
    [| rewrite (transform_failed_get JSON_parse g e k Hscan) in Hleaf; discriminate].
  rewrite (transform_get JSON_parse g st k Hscan) in Hleaf.
  destruct (k =? "__proto__"); [discriminate|].
  destruct (last_value k (bare_pairs (tl g))) as [raw|].
  - injection Hleaf as <-. apply coerced_parseValue.
  - destruct (collection_pairs k (tl g)) as [|p ps]; [discriminate|].
    injection Hleaf as <-. eexists. split; [reflexivity|].
    intros k' leaf' H. rewrite own_get_map_values, fromEntries_get in H.
    destruct (last_value k' (p :: ps)) as [raw|]; [|discriminate].
    injection H as <-. exists raw. split; [reflexivity | apply coerced_parseValue].
Qed.

(** C6.  On every grid the batched pass (flatten, parse, write back by a
    running index) yields the tree that per-leaf coercion in place
    yields. *)
Theorem batched_coercion_is_per_leaf
  (JSON_parse : string -> option value) (g : grid) :
  createContextJSON JSON_parse (grid_value g)
  = createContextJSON_naive JSON_parse (grid_value g).
Proof.
  rewrite naive_typed.
  destruct (scan (map row_value (tl g))) as [st|e] eqn:Hscan.
  - now apply transform_normal.
  - now apply (transform_failed JSON_parse g e).
Qed.


(* ================================================================== *)
(** ** Objects filled key by key *)

Lemma fold_assign_plain l : forall o,
  ~ In "__proto__" (map fst l) ->
  own (fold_left assign_step l o) = fold_left set_step l (own o).
Proof.
  induction l as [|[k v] l IH]; simpl; intros o Hk; [reflexivity|].
  rewrite IH by tauto. unfold assign_step, set_step. simpl.
  rewrite obj_set_plain by (intros ->; tauto). reflexivity.
Qed.

Lemma fold_entries_keyed pairs : forall o,
  fold_left entry_step pairs o = fold_left set_step (map keyed pairs) o.
Proof.
  induction pairs as [|kv pairs IH]; simpl; intros o; [reflexivity | apply IH].
Qed.

(** Distinct new keys, none of them an array index, are appended in the
    order of their assignment. *)
Lemma fold_set_append l : forall o,
  NoDup (map fst (o ++ l)) ->
  (forall k, In k (map fst l) -> array_index k = None) ->
  fold_left set_step l o = o ++ l.
Proof.
  induction l as [|[k v] l IH]; simpl; intros o Hnd Hidx.
  - now rewrite app_nil_r.
  - assert (Hk : ~ In k (map fst o)) by (eapply NoDup_keys_head; exact Hnd).
    unfold set_step at 2. simpl. unfold own_set.
    apply has_own_false in Hk. rewrite Hk. unfold define_new.
    rewrite (Hidx k) by now left.
    rewrite IH.
    + now rewrite <- app_assoc.
    + now rewrite <- app_assoc.
    + intros k0 Hk0. apply Hidx. now right.
Qed.

(** The prototype of an object survives assignments of values that are
    neither objects nor [null]. *)
Lemma fold_assign_keeps_prototype l : forall o,
  Forall (fun kv => keeps_prototype (snd kv) = true) l ->
  proto_setter o = true -> own_get "__proto__" (own o) = None ->
  ~ In "__proto__" (map fst (own (fold_left assign_step l o))).
Proof.
  induction l as [|[k v] l IH]; simpl; intros o Hl Hset Hown.
  - now apply own_get_None.
  - inversion Hl as [|? ? Hv Hl']; subst. simpl in Hv.
    apply IH; [exact Hl' | |].
    + unfold assign_step, obj_set. simpl.
      destruct (has_own k (own o)); [exact Hset|].
      destruct ((k =? "__proto__") && proto_setter o); [|exact Hset].
      simpl. now destruct v.
    + unfold assign_step, obj_set. simpl.
      destruct (has_own k (own o)) eqn:Hhas; simpl.
      * rewrite own_get_replace.
        destruct (String.eqb_spec "__proto__" k) as [<-|]; [|exact Hown].
        now rewrite Hown.
      * destruct (String.eqb_spec k "__proto__") as [->|Hne]; simpl.
        -- rewrite Hset. exact Hown.
        -- rewrite own_get_define_new by now apply has_own_false.
           destruct (String.eqb_spec "__proto__" k); [congruence | exact Hown].
Qed.

(* ================================================================== *)
(** ** The row mapper *)

Lemma zip_from_cons i h hs row :
  zip_from i (h :: hs) row = (h, nth i row VUndefined) :: zip_from (S i) hs row.
Proof. reflexivity. Qed.

Lemma zip_from_fst hs row : forall i, map fst (zip_from i hs row) = hs.
Proof.
  induction hs as [|h hs IH]; intros i; [reflexivity|].
  rewrite zip_from_cons. simpl. now rewrite IH.
Qed.

Lemma zip_from_app a b row : forall i,
  zip_from i (a ++ b) row = zip_from i a row ++ zip_from (i + List.length a) b row.
Proof.
  induction a as [|h a IH]; intros i; simpl.
  - now rewrite Nat.add_0_r.
  - rewrite !zip_from_cons, IH. simpl. now rewrite Nat.add_succ_r.
Qed.

Lemma zip_from_In i hs row h v :
  In (h, v) (zip_from i hs row) -> exists j, v = nth j row VUndefined.
Proof.
  revert i. induction hs as [|h0 hs IH]; intros i; [intros []|].
  rewrite zip_from_cons. intros [Heq|Hin]; [|eauto].
  exists i. congruence.
Qed.

Lemma zip_from_prefix hs row extra : forall i,
  i + List.length hs <= List.length row ->
  zip_from i hs (row ++ extra) = zip_from i hs row.
Proof.
  induction hs as [|h hs IH]; intros i Hlen; [reflexivity|].
  simpl in Hlen. rewrite !zip_from_cons, IH by lia.
  now rewrite app_nth1 by lia.
Qed.

Lemma keyed_keys pairs : map fst (map keyed pairs) = map ToString (map fst pairs).
Proof. rewrite !map_map. reflexivity. Qed.

Lemma getRowData_fold row hs : forall o i,
  foldM (getRowData_step (VArr row)) hs (o, i)
  = Return (fold_left assign_step (map keyed (zip_from i hs row)) o,
            i + List.length hs).
Proof.
  induction hs as [|h hs IH]; intros o i.
  - simpl. now rewrite Nat.add_0_r.
  - rewrite zip_from_cons. cbn [foldM getRowData_step index_get bind].
    rewrite IH. cbn [map fold_left List.length]. now rewrite Nat.add_succ_r.
Qed.

Lemma getRowData_array hs row :
  getRowData (VArr hs) (VArr row)
  = VObj (own (fold_left assign_step (map keyed (zip_row hs row)) empty_object)).
Proof.
  unfold getRowData, getRowData_try. now rewrite getRowData_fold.
Qed.

Lemma getRowData_fromEntries hs row :
  ~ In "__proto__" (map ToString hs) ->
  getRowData (VArr hs) (VArr row) = VObj (Object_fromEntries (zip_row hs row)).
Proof.
  intros Hproto. rewrite getRowData_array. f_equal.
  rewrite fold_assign_plain.
  - unfold Object_fromEntries. now rewrite fold_entries_keyed.
  - unfold zip_row. now rewrite keyed_keys, zip_from_fst.
Qed.

(** Row objects built from sheet cells have distinct keys and never own
    the key ["__proto__"]. *)
Lemma getRowData_row_object hs (cells : list scalar) :
  ~ In SNull cells ->
  let ps := members (getRowData (VArr hs) (row_value cells)) in
  NoDup (map fst ps) /\ ~ In "__proto__" (map fst ps).
Proof.
  intros Hnull. unfold row_value. rewrite getRowData_array. simpl. split.
  - apply fold_assign_NoDup. constructor.
  - apply fold_assign_keeps_prototype; [|reflexivity|reflexivity].
    apply Forall_forall. intros [k v] Hin.
    apply in_map_iff in Hin. destruct Hin as [[h v'] [Heq Hin]].
    injection Heq as _ <-. simpl.
    apply zip_from_In in Hin. destruct Hin as [j ->].
    destruct (nth_in_or_default j (map scalar_value cells) VUndefined) as [Hj | ->];
      [|reflexivity].
    apply in_map_iff in Hj. destruct Hj as [c [<- Hc]].
    destruct c; try reflexivity. contradiction.
Qed.

(** C8, as the code has it.  For headers none of which reads
    ["__proto__"], [getRowData] returns an object with one entry per
    distinct header name; a header name holds the row value at the
    position of its last occurrence ([undefined] past the end of the row);
    when the header names are pairwise distinct and none is an array
    index, the entries are the positional zip, in header order; row
    values beyond the headers do not matter. *)
Theorem getRowData_zips_headers (hs row : list value) :
  ~ In "__proto__" (map ToString hs) ->
  let out := members (getRowData (VArr hs) (VArr row)) in
  getRowData (VArr hs) (VArr row) = VObj out
  /\ NoDup (map fst out)
  /\ (forall k, In k (map fst out) <-> In k (map ToString hs))
  /\ (forall before h after,
        hs = before ++ h :: after ->
        ~ In (ToString h) (map ToString after) ->
        own_get (ToString h) out = Some (nth (List.length before) row VUndefined))
  /\ (NoDup (map ToString hs) ->
      (forall h, In h hs -> array_index (ToString h) = None) ->
      out = map keyed (zip_row hs row))
  /\ (forall extra,
        List.length hs <= List.length row ->
        getRowData (VArr hs) (VArr (row ++ extra)) = getRowData (VArr hs) (VArr row))
  /\ getRowData (VArr [VStr "A"; VStr "B"]) (VArr [VStr "x"])
     = VObj [("A", VStr "x"); ("B", VUndefined)].
Proof.
  intros Hproto out.
  assert (Hout : out = Object_fromEntries (zip_row hs row))
    by (unfold out; now rewrite getRowData_fromEntries).
  assert (Hkeys : forall i hs', map (fun kv => ToString (fst kv)) (zip_from i hs' row)
                                = map ToString hs')
    by (intros i hs'; now rewrite <- (map_map fst ToString), zip_from_fst).
  repeat split.
  - now rewrite getRowData_fromEntries, Hout.
  - rewrite Hout. apply fromEntries_NoDup.
  - intros Hin.
    destruct (in_dec string_dec k (map ToString hs)) as [Hk|Hk]; [exact Hk|].
    exfalso. apply (proj1 (own_get_None _ k out)); [|exact Hin].
    rewrite Hout, fromEntries_get. apply last_value_None.
    unfold zip_row. now rewrite Hkeys.
  - intros Hin.
    destruct (in_dec string_dec k (map fst out)) as [Hk|Hk]; [exact Hk|].
    exfalso. apply own_get_None in Hk.
    rewrite Hout, fromEntries_get in Hk. apply last_value_None in Hk.
    unfold zip_row in Hk. now rewrite Hkeys in Hk.
  - intros before h after -> Hlast.
    rewrite Hout, fromEntries_get. unfold zip_row.
    rewrite zip_from_app, zip_from_cons, last_value_middle. simpl.
    unfold latest.
    replace (last_value (ToString h) (zip_from (S (List.length before)) after row))
      with (@None value); [reflexivity|].
    symmetry. apply last_value_None. now rewrite Hkeys.
  - intros Hnd Hidx. rewrite Hout. unfold Object_fromEntries.
    rewrite fold_entries_keyed.
    assert (Hk : map fst (map keyed (zip_row hs row)) = map ToString hs)
      by (unfold zip_row; now rewrite keyed_keys, zip_from_fst).
    rewrite fold_set_append; [reflexivity | simpl; now rewrite Hk |].
    intros k Hin. rewrite Hk in Hin. apply in_map_iff in Hin.
    destruct Hin as [h [<- Hh]]. now apply Hidx.
  - intros extra Hlen. rewrite !getRowData_array. unfold zip_row.
    now rewrite zip_from_prefix.
Qed.

(* ================================================================== *)
(** ** The payload assembler *)

Lemma combine_fst_snd (A B : Type) (l : list (A * B)) :
  combine (map fst l) (map snd l) = l.
Proof.
  induction l as [|[a b] l IH]; simpl; [reflexivity | now rewrite IH].
Qed.

Lemma eventData_fold ps : forall o,
  fold_left eventData_step ps o
  = fold_left assign_step (filter (fun kv => nonEmpty (snd kv)) ps) o.
Proof.
  induction ps as [|[k v] ps IH]; intros o; simpl; [reflexivity|].
  unfold eventData_step at 2. simpl.
  destruct (nonEmpty v); simpl; apply IH.
Qed.

Lemma filter_keys_incl (A : Type) (f : string * A -> bool) (ps : props A) k :
  In k (map fst (filter f ps)) -> In k (map fst ps).
Proof.
  intros H. apply in_map_iff in H. destruct H as [kv [<- Hin]].
  apply filter_In in Hin. apply in_map. tauto.
Qed.

Lemma filter_keys_NoDup (A : Type) (f : string * A -> bool) (ps : props A) :
  NoDup (map fst ps) -> NoDup (map fst (filter f ps)).
Proof.
  induction ps as [|[k v] ps IH]; simpl; intros Hnd; [constructor|].
  inversion Hnd as [|? ? Hk Hnd']; subst.
  destruct (f (k, v)); simpl; [|auto].
  constructor; [|auto]. intros Hin. apply Hk. eapply filter_keys_incl. exact Hin.
Qed.

Lemma own_get_filter (A : Type) (f : A -> bool) (ps : props A) k :
  NoDup (map fst ps) ->
  own_get k (filter (fun kv => f (snd kv)) ps)
  = match own_get k ps with
    | Some v => if f v then Some v else None
    | None => None
    end.
Proof.
  induction ps as [|[k0 v0] ps IH]; simpl; intros Hnd; [reflexivity|].
  inversion Hnd as [|? ? Hk Hnd']; subst.
  destruct (String.eqb_spec k k0) as [->|Hne].
  - destruct (f v0) eqn:Hf; simpl.
    + now rewrite String.eqb_refl.
    + apply own_get_None. intros Hin. apply Hk. eapply filter_keys_incl. exact Hin.
  - destruct (f v0); simpl; [|auto].
    destruct (String.eqb_spec k k0); [contradiction | auto].
Qed.

(** X21.  For a row object with distinct keys that does not own the key
    ["__proto__"] (as [getRowData] builds them from sheet cells),
    [createEpicsJSON] returns an object whose [context] is the context
    tree as given and whose [eventData] holds exactly the entries of the
    row object whose value is not [null], [undefined] or the empty
    string, with their values; [0] and [false] are kept; the five
    metadata fields follow when an event is given. *)
Theorem createEpicsJSON_payload
  (rowObject : props value) (contextTree : value) (e : option event) :
  NoDup (map fst rowObject) ->
  ~ In "__proto__" (map fst rowObject) ->
  exists eventData,
    createEpicsJSON (VObj rowObject) contextTree e
    = VObj (("context", contextTree) :: ("eventData", VObj eventData) :: metadata e)
    /\ NoDup (map fst eventData)
    /\ (forall k, own_get k eventData
                  = match own_get k rowObject with
                    | Some v => if nonEmpty v then Some v else None
                    | None => None
                    end)
    /\ ((forall k, In k (map fst rowObject) -> array_index k = None) ->
        eventData = filter (fun kv => nonEmpty (snd kv)) rowObject)
    /\ createEpicsJSON (VObj [("A", VNum 0); ("B", VStr ""); ("C", VBool false)])
                       (VObj []) None
       = VObj [("context", VObj []);
               ("eventData", VObj [("A", VNum 0); ("C", VBool false)])]
    /\ (forall ev, map fst (metadata (Some ev))
                   = ["gsheet_id"; "sheet_name_id"; "row_id"; "user_id"; "modify_time"]).
Proof.
  intros Hnd Hproto.
  set (kept_entries := filter (fun kv => nonEmpty (snd kv)) rowObject).
  assert (Hnd' : NoDup (map fst kept_entries)) by now apply filter_keys_NoDup.
  assert (Hproto' : ~ In "__proto__" (map fst kept_entries))
    by (intros Hin; apply Hproto; eapply filter_keys_incl; exact Hin).
  exists (own (fold_left assign_step kept_entries empty_object)).
  repeat split.
  - unfold createEpicsJSON, createEpicsJSON_try. simpl.
    unfold Object_keys, Object_values. rewrite combine_fst_snd, eventData_fold.
    reflexivity.
  - apply fold_assign_NoDup. constructor.
  - intros k. rewrite fold_assign_get; [| exact Hnd' | reflexivity | now left].
    unfold kept_entries. rewrite own_get_filter by exact Hnd. simpl.
    destruct (String.eqb_spec k "__proto__") as [->|].
    + apply own_get_None in Hproto. now rewrite Hproto.
    + now destruct (own_get k rowObject) as [v|]; [destruct (nonEmpty v)|].
  - intros Hidx. rewrite fold_assign_plain by exact Hproto'.
    rewrite fold_set_append; [reflexivity | exact Hnd' |].
    intros k Hin. apply Hidx. eapply filter_keys_incl. exact Hin.
Qed.

(* ================================================================== *)
(** ** The trigger classifier and the webhook lookup *)

(** C9.  The trigger fires exactly for column 10 and the string
    ["Groom EPIC"]; case variants, partial matches and other columns do
    not fire. *)
Theorem isExtractTodoSummariesTrigger_exact (r : range) :
  (isExtractTodoSummariesTrigger r = true
   <-> getColumn r = 10%Z /\ getValue r = VStr "Groom EPIC")
  /\ isExtractTodoSummariesTrigger (mkRange 10 (VStr "Groom EPIC")) = true
  /\ isExtractTodoSummariesTrigger (mkRange 10 (VStr "groom epic")) = false
  /\ isExtractTodoSummariesTrigger (mkRange 10 (VStr "Groom")) = false
  /\ isExtractTodoSummariesTrigger (mkRange 10 (VStr "Groom EPIC now")) = false
  /\ isExtractTodoSummariesTrigger (mkRange 9 (VStr "Groom EPIC")) = false.
Proof.
  split; [|repeat split].
  unfold isExtractTodoSummariesTrigger. rewrite andb_true_iff, Z.eqb_eq.
  split; intros [Hcol Hval]; (split; [exact Hcol|]).
  - destruct (getValue r); try discriminate.
    simpl in Hval. apply String.eqb_eq in Hval. now subst.
  - now rewrite Hval.
Qed.

(** The lookup on names that no object inherits. *)
Lemma getWebhookUrl_configured (cfg : config) (operation : string) :
  inherited operation = false ->
  getWebhookUrl cfg operation
  = match own_get operation (WEBHOOKS cfg) with
    | Some u => if u =? "" then Null else Url u
    | None => Null
    end.
Proof.
  intros Hinh. unfold getWebhookUrl, Get.
  destruct (own_get operation (WEBHOOKS cfg)); [reflexivity|].
  now rewrite Hinh.
Qed.

(** C10 at the operation name ["constructor"]: the name is not
    configured, and the lookup hands back a built-in instead of [null]. *)
Theorem getWebhookUrl_inherited_name :
  own_get "constructor" (WEBHOOKS CONFIG) = None
  /\ getWebhookUrl CONFIG "constructor" = BuiltinObject "constructor"
  /\ getWebhookUrl CONFIG "INVALID_OPERATION" = Null
  /\ getWebhookUrl CONFIG "GROOM_SUBTASKS" = Null.
Proof. repeat split. Qed.

(* ================================================================== *)
(** ** Runs on concrete inputs *)

Example documented_grid_output :
  createContextJSON json_parse (grid_value documented_grid)
  = VObj [ ("Collection1", VObj [("Key1", VStr "Value1"); ("Key2", VStr "Value2")]);
           ("Collection2", VObj [("Key4", VObj [("nestedKey", VStr "nestedValue")])]);
           ("Key3", VStr "Value3") ].
Proof. vm_compute. reflexivity. Qed.

Example literal_grid_output :
  createContextJSON json_parse (grid_value literal_grid)
  = VObj [ ("Limits", VObj [("max", VNum 42)]);
           ("enabled", VBool true);
           ("owner", VStr "Value3") ].
Proof. vm_compute. reflexivity. Qed.

(** C1 as stated fails: a row whose entry key is the number [0] and whose
    entry value is text has neither cell empty, and is dropped; a row
    whose entry value is [null] has an empty value, and is kept. *)
Lemma spec_emptiness_refuted :
  (spec_empty (VNum 0) = false /\ spec_empty (VStr "v") = false
   /\ createContextJSON json_parse
        (grid_value [header_row; data_row (SStr "") (SNum 0) (SStr "v")])
      = VObj [])
  /\ (spec_empty VNull = true
      /\ createContextJSON json_parse
           (grid_value [header_row; data_row (SStr "") (SStr "k") SNull])
         = VObj [("k", VNull)]).
Proof. vm_compute. repeat split. Qed.

Lemma guard_decides_inclusion_witness :
  let before := [data_row (SStr "Collection1") (SStr "Key1") (SStr "Value1")] in
  let r := data_row (SStr "") (SStr "Key3") (SStr "42") in
  let after := [data_row (SStr "Collection2") (SStr "Key4") (SStr "x")] in
  guard (entry_key r) (entry_value r) = true
  /\ safe_names (before ++ r :: after) = true
  /\ own_get "Key3" (transform json_parse (header_row :: before ++ r :: after))
     = Some (VNum 42).
Proof.
  intros before r after.
  split; [reflexivity|]. split; [reflexivity|].
  pose proof (proj2 (guard_decides_inclusion json_parse header_row before after r)
                eq_refl eq_refl) as H.
  vm_compute in H. vm_compute. apply H. discriminate.
Defined.

(** C2 on a grid whose shared name is ["toString"]: the bare entry does
    not reach the output, which is [{}]; with the name ["tools"] it
    does. *)
Theorem shared_builtin_name_empties_output :
  collection_pairs "toString" (tl (colliding_grid "toString")) <> []
  /\ last_value "toString" (bare_pairs (tl (colliding_grid "toString")))
     = Some (VStr "2")
  /\ createContextJSON json_parse (grid_value (colliding_grid "toString")) = VObj []
  /\ createContextJSON json_parse (grid_value (colliding_grid "tools"))
     = VObj [("tools", VNum 2)].
Proof. vm_compute. repeat split. discriminate. Qed.

Lemma leaves_are_coerced_cells_witness :
  own_get "enabled" (transform json_parse literal_grid) = Some (VBool true)
  /\ coerced json_parse (VStr "true") (VBool true).
Proof.
  assert (H : own_get "enabled" (transform json_parse literal_grid) = Some (VBool true))
    by (vm_compute; reflexivity).
  split; [exact H|].
  exact (leaves_are_coerced_cells json_parse literal_grid "enabled" (VBool true) H).
Defined.


(** C8 as stated fails on a repeated header: three headers, two entries,
    and the first blank header does not hold the value at its position. *)
Lemma mapRow_contract_refuted :
  ~ mapRow_contract [VStr "A"; VStr ""; VStr ""] [VStr "x"; VStr "y"; VStr "z"].
Proof. intros [Hlen _]. vm_compute in Hlen. discriminate. Qed.

Lemma getRowData_zips_headers_witness :
  let hs := [VStr "A"; VStr ""; VStr ""] in
  let row := [VStr "x"; VStr "y"; VStr "z"] in
  ~ In "__proto__" (map ToString hs)
  /\ own_get "" (members (getRowData (VArr hs) (VArr row))) = Some (VStr "z").
Proof.
  intros hs row.
  assert (Hproto : ~ In "__proto__" (map ToString hs))
    by (simpl; intuition discriminate).
  split; [exact Hproto|].
  destruct (getRowData_zips_headers hs row Hproto) as (_ & _ & _ & Hlast & _).
  apply (Hlast [VStr "A"; VStr ""] (VStr "") []); [reflexivity | simpl; tauto].
Defined.

Lemma createEpicsJSON_payload_witness :
  let rowObject := [("A", VNum 0); ("B", VStr ""); ("C", VBool false)] in
  NoDup (map fst rowObject)
  /\ ~ In "__proto__" (map fst rowObject)
  /\ exists eventData,
       createEpicsJSON (VObj rowObject) (VObj []) None
       = VObj [("context", VObj []); ("eventData", VObj eventData)]
       /\ own_get "A" eventData = Some (VNum 0)
       /\ own_get "B" eventData = None.
Proof.
  intros rowObject.
  assert (Hnd : NoDup (map fst rowObject))
    by (repeat constructor; simpl; intuition discriminate).
  assert (Hproto : ~ In "__proto__" (map fst rowObject))
    by (simpl; intuition discriminate).
  split; [exact Hnd|]. split; [exact Hproto|].
  destruct (createEpicsJSON_payload rowObject (VObj []) None Hnd Hproto)
    as (eventData & Hjson & _ & Hget & _).
  exists eventData. split; [exact Hjson|].
  split; [exact (Hget "A") | exact (Hget "B")].
Defined.


(* ================================================================== *)
(** ** More on the transformer *)

Lemma scan_row_same_entry st r r' :
  same_entry r r' -> scan_row st (row_value r) = scan_row st (row_value r').
Proof.
  intros (Hc & Hk & Hv). destruct st as [g f]. rewrite !scan_row_typed.
  unfold kept, pair_of. now rewrite Hc, Hk, Hv.
Qed.

Lemma scan_same_entries rows rows' :
  Forall2 same_entry rows rows' ->
  forall st, foldM scan_row (map row_value rows) st
             = foldM scan_row (map row_value rows') st.
Proof.
  induction 1 as [|r r' rows rows' Hr _ IH]; intros st; simpl; [reflexivity|].
  rewrite (scan_row_same_entry st r r' Hr).
  destruct (scan_row st (row_value r')); simpl; [apply IH | reflexivity].
Qed.

(** X1.  The output depends on columns A, D and G alone: grids whose data
    rows agree, row by row, on these three cells have the same output,
    whatever the header rows, the other columns and the row lengths. *)
Theorem only_columns_A_D_G_matter
  (JSON_parse : string -> option value) (g g' : grid) :
  Forall2 same_entry (tl g) (tl g') ->
  createContextJSON JSON_parse (grid_value g)
  = createContextJSON JSON_parse (grid_value g').
Proof.
  intros H. unfold createContextJSON. rewrite !try_typed. unfold scan.
  now rewrite (scan_same_entries _ _ H).
Qed.

Lemma scan_unsafe rows : forall g f,
  (forall c, In c (map fst g) -> inherited c = false) ->
  safe_names rows = false ->
  foldM scan_row (map row_value rows) (g, f) = Throw TypeError.
Proof.
  induction rows as [|r rows IH]; intros g f Hinh Hsafe; [discriminate|].
  simpl in Hsafe. simpl. rewrite scan_row_typed. unfold safe_row in Hsafe.
  destruct (kept r); simpl in Hsafe; [|now apply IH].
  destruct (ToBoolean (collection_key r)); simpl in Hsafe; [|now apply IH].
  set (c := ToString (collection_key r)) in *. unfold Get.
  destruct (own_get c g) as [rows0|] eqn:Hg; simpl.
  - assert (Hc : inherited c = false)
      by (apply Hinh, has_own_In; unfold has_own; now rewrite Hg).
    rewrite Hc in Hsafe. simpl in Hsafe. apply IH; [|exact Hsafe].
    intros c' Hc'. apply own_set_keys_In in Hc'. destruct Hc' as [->|Hc']; auto.
  - destruct (inherited c) eqn:Hc; simpl; [reflexivity|].
    simpl in Hsafe. apply IH; [|exact Hsafe].
    intros c' Hc'. apply own_set_keys_In in Hc'. destruct Hc' as [->|Hc']; auto.
Qed.

(** X2.  The [try] block throws exactly when some kept row names its
    collection after a property inherited from [Object.prototype]
    ([constructor], [toString], [valueOf], [__proto__], ...); the whole
    output is then [{}], whatever the other rows hold. *)
Theorem inherited_collection_name_empties_output
  (JSON_parse : string -> option value) (g : grid) :
  (createContextJSON_try JSON_parse (grid_value g) = Throw TypeError
   <-> safe_names (tl g) = false)
  /\ (safe_names (tl g) = false ->
      createContextJSON JSON_parse (grid_value g) = VObj []).
Proof.
  assert (Hthrow : safe_names (tl g) = false ->
                   createContextJSON_try JSON_parse (grid_value g) = Throw TypeError).
  { intros H. rewrite try_typed. unfold scan.
    rewrite scan_unsafe; [reflexivity | intros c [] | exact H]. }
  split; [split; [|exact Hthrow]|].
  - intros H. destruct (safe_names (tl g)) eqn:Hsafe; [|reflexivity].
    destruct (scan_total (tl g) ([], []) Hsafe) as [st Hst].
    rewrite try_typed in H. unfold scan in H. rewrite Hst in H. discriminate.
  - intros H. unfold createContextJSON. now rewrite Hthrow.
Qed.

Lemma collection_pairs_keys c rows :
  collection_pairs c rows <> [] <->
  exists r, In r rows /\ kept r = true /\ in_collection c r = true.
Proof.
  unfold collection_pairs. split.
  - destruct (filter _ rows) as [|r rs] eqn:Hf; [now intros []|].
    intros _. exists r.
    assert (Hin : In r (filter (fun r => kept r && in_collection c r) rows))
      by (rewrite Hf; now left).
    apply filter_In in Hin. destruct Hin as [Hin Hb].
    apply andb_true_iff in Hb. tauto.
  - intros (r & Hin & Hk & Hc) Hnil.
    assert (Hf : In r (filter (fun r => kept r && in_collection c r) rows))
      by (apply filter_In; split; [exact Hin | now rewrite Hk, Hc]).
    apply (in_map pair_of) in Hf. rewrite Hnil in Hf. exact Hf.
Qed.

(** X3.  The transformer invents no key: a top-level key of the output is
    the entry key of a kept bare row or the collection key of a kept row.
    When no kept row names its collection after an inherited property,
    the converse holds for every key but ["__proto__"]. *)
Theorem output_keys_come_from_kept_rows
  (JSON_parse : string -> option value) (g : grid) (k : string) :
  let from_rows :=
    In k (map (fun kv => ToString (fst kv)) (bare_pairs (tl g)))
    \/ collection_pairs k (tl g) <> [] in
  (In k (map fst (transform JSON_parse g)) -> k <> "__proto__" /\ from_rows)
  /\ (safe_names (tl g) = true -> k <> "__proto__" -> from_rows ->
      In k (map fst (transform JSON_parse g))).
Proof.
  intros from_rows.
  assert (Hdec : forall l, last_value k l = None
                           \/ In k (map (fun kv => ToString (fst kv)) l)).
  { intros l. destruct (last_value k l) eqn:Hl; [right | now left].
    destruct (in_dec string_dec k (map (fun kv => ToString (fst kv)) l)) as [H|H];
      [exact H|]. apply last_value_None in H. congruence. }
  split.
  - intros Hin.
    destruct (scan (map row_value (tl g))) as [st|e] eqn:Hscan.
    + destruct (own_get k (transform JSON_parse g)) as [v|] eqn:Hget;
        [| apply own_get_None in Hget; contradiction].
      rewrite (transform_get JSON_parse g st k Hscan) in Hget.
      destruct (String.eqb_spec k "__proto__"); [discriminate|].
      split; [assumption|]. unfold from_rows.
      destruct (Hdec (bare_pairs (tl g))) as [Hb|Hb]; [|now left].
      rewrite Hb in Hget. right. intros Hnil. now rewrite Hnil in Hget.
    + unfold transform in Hin. rewrite (transform_failed JSON_parse g e Hscan) in Hin.
      destruct Hin.
  - intros Hsafe Hk Hfrom.
    destruct (scan_total (tl g) ([], []) Hsafe) as [st Hscan].
    apply has_own_In. unfold has_own.
    rewrite (transform_get JSON_parse g st k Hscan).
    destruct (String.eqb_spec k "__proto__"); [contradiction|].
    destruct (last_value k (bare_pairs (tl g))) eqn:Hb; [reflexivity|].
    destruct Hfrom as [Hin|Hc].
    + apply last_value_None in Hb. contradiction.
    + now destruct (collection_pairs k (tl g)).
Qed.

Lemma scan_filter_kept rows : forall st,
  foldM scan_row (map row_value rows) st
  = foldM scan_row (map row_value (filter kept rows)) st.
Proof.
  induction rows as [|r rows IH]; intros [g f]; simpl; [reflexivity|].
  destruct (kept r) eqn:Hk; simpl.
  - destruct (scan_row (g, f) (row_value r)); simpl; [apply IH | reflexivity].
  - rewrite scan_row_typed, Hk. simpl. apply IH.
Qed.

(** X4.  Rows that fail the guard leave no trace: the output of a grid is
    the output of its kept rows; a grid without a kept row (an empty grid,
    a header alone, blank rows) gives [{}]. *)
Theorem rows_failing_the_guard_leave_no_trace
  (JSON_parse : string -> option value) (g : grid) :
  createContextJSON JSON_parse (grid_value g)
  = createContextJSON JSON_parse
      (grid_value (match g with
                   | [] => []
                   | hdr :: rows => hdr :: filter kept rows
                   end))
  /\ (forallb (fun r => negb (kept r)) (tl g) = true ->
      createContextJSON JSON_parse (grid_value g) = VObj []).
Proof.
  assert (Hdrop : createContextJSON JSON_parse (grid_value g)
                  = createContextJSON JSON_parse
                      (grid_value (match g with
                                   | [] => []
                                   | hdr :: rows => hdr :: filter kept rows
                                   end))).
  { unfold createContextJSON. rewrite !try_typed. unfold scan.
    destruct g as [|hdr rows]; [reflexivity|]. simpl tl.
    now rewrite scan_filter_kept. }
  split; [exact Hdrop|].
  intros Hall. rewrite Hdrop.
  destruct g as [|hdr rows]; [reflexivity|]. simpl in Hall.
  assert (Hnone : filter kept rows = []).
  { clear Hdrop. induction rows as [|r rows IH]; [reflexivity|].
    simpl in *. apply andb_true_iff in Hall. destruct Hall as [Hr Hall].
    destruct (kept r); [discriminate | auto]. }
  now rewrite Hnone.
Qed.

(* ================================================================== *)
(** ** More on the row mapper and the payload assembler *)

Lemma fold_assign_drops_proto l : forall o,
  Forall (fun kv => keeps_prototype (snd kv) = true) l ->
  proto_setter o = true -> own_get "__proto__" (own o) = None ->
  own (fold_left assign_step l o)
  = fold_left set_step (filter (fun kv => negb (fst kv =? "__proto__")) l) (own o).
Proof.
  induction l as [|[k v] l IH]; intros o Hl Hset Hown; [reflexivity|].
  inversion Hl as [|? ? Hv Hl']; subst. simpl in Hv. simpl.
  destruct (String.eqb_spec k "__proto__") as [->|Hk]; simpl.
  - assert (Hstep : assign_step o ("__proto__", v) = mkObject (own o) true).
    { unfold assign_step, obj_set, has_own. simpl. rewrite Hown, Hset. simpl.
      now destruct v. }
    rewrite Hstep. now rewrite IH.
  - unfold assign_step at 2. simpl. rewrite obj_set_plain by exact Hk.
    rewrite IH; [reflexivity | exact Hl' | exact Hset |].
    simpl. rewrite own_get_own_set.
    destruct (String.eqb_spec "__proto__" k); [congruence | exact Hown].
Qed.

Lemma filter_keyed pairs :
  filter (fun kv => negb (fst kv =? "__proto__")) (map keyed pairs)
  = map keyed (filter settable pairs).
Proof.
  induction pairs as [|kv pairs IH]; simpl; [reflexivity|].
  unfold settable at 1. destruct (ToString (fst kv) =? "__proto__"); simpl;
    now rewrite IH.
Qed.

(** X5.  On a row of sheet cells ([null] apart), a header that reads
    ["__proto__"] is dropped and every other header is mapped as if it
    were not there: the result is [Object.fromEntries] of the positional
    zip without those headers. *)
Theorem getRowData_drops_proto_header (hs : list value) (cells : list scalar) :
  ~ In SNull cells ->
  getRowData (VArr hs) (row_value cells)
  = VObj (Object_fromEntries
            (filter settable (zip_row hs (map scalar_value cells)))).
Proof.
  intros Hnull. unfold row_value. rewrite getRowData_array. f_equal.
  rewrite fold_assign_drops_proto; [| |reflexivity|reflexivity].
  - rewrite filter_keyed. unfold Object_fromEntries.
    now rewrite fold_entries_keyed.
  - apply Forall_forall. intros [k v] Hin.
    apply in_map_iff in Hin. destruct Hin as [[h v'] [Heq Hin]].
    injection Heq as _ <-. simpl.
    apply zip_from_In in Hin. destruct Hin as [j ->].
    destruct (nth_in_or_default j (map scalar_value cells) VUndefined) as [Hj | ->];
      [|reflexivity].
    apply in_map_iff in Hj. destruct Hj as [c [<- Hc]].
    destruct c; try reflexivity. contradiction.
Qed.

Lemma getRowData_object headers row : exists ps, getRowData headers row = VObj ps.
Proof.
  unfold getRowData, getRowData_try. destruct headers; try (now eexists).
  destruct (foldM _ _ _); simpl; now eexists.
Qed.

Lemma getRowData_absent_row headers row :
  row = VNull \/ row = VUndefined -> getRowData headers row = VObj [].
Proof.
  intros Hrow. destruct headers as [| | | | |hs|]; try reflexivity.
  destruct hs as [|h hs]; [reflexivity|].
  unfold getRowData, getRowData_try. simpl.
  now destruct Hrow as [-> | ->].
Qed.

(** X6.  [getRowData] returns [{}] when the headers are not an array and
    when the row is [null] or [undefined], whatever the headers. *)
Theorem getRowData_fails_soft (headers row : value) :
  ((forall hs, headers <> VArr hs) -> getRowData headers row = VObj [])
  /\ (row = VNull \/ row = VUndefined -> getRowData headers row = VObj []).
Proof.
  split; [|apply getRowData_absent_row].
  intros Hnot. destruct headers; try reflexivity. now destruct (Hnot elems).
Qed.

Lemma eventData_nonEmpty entries k v :
  In (k, v) (own (fold_left eventData_step entries empty_object)) ->
  nonEmpty v = true.
Proof.
  rewrite eventData_fold. intros H. apply fold_assign_In in H.
  destruct H as [H|[]]. apply filter_In in H. now destruct H.
Qed.

Lemma createEpicsJSON_of_entries data entries contextData e :
  Object_entries data = Return entries ->
  exists eventData,
    createEpicsJSON data contextData e
    = VObj (("context", contextData) :: ("eventData", VObj eventData) :: metadata e)
    /\ Forall (fun kv => nonEmpty (snd kv) = true) eventData.
Proof.
  intros H. exists (own (fold_left eventData_step entries empty_object)). split.
  - unfold createEpicsJSON, createEpicsJSON_try. now rewrite H.
  - apply Forall_forall. intros [k v] Hin. simpl. eapply eventData_nonEmpty, Hin.
Qed.

(** X7.  [createEpicsJSON] returns [{}], without the context, when the
    row data is [null] or [undefined]; for every other row data it
    returns the payload, and no value of [eventData] is [null],
    [undefined] or the empty string. *)
Theorem createEpicsJSON_never_sends_empty_values
  (data contextData : value) (e : option event) :
  (data = VNull \/ data = VUndefined -> createEpicsJSON data contextData e = VObj [])
  /\ (data <> VNull -> data <> VUndefined ->
      exists eventData,
        createEpicsJSON data contextData e
        = VObj (("context", contextData) :: ("eventData", VObj eventData)
                :: metadata e)
        /\ Forall (fun kv => nonEmpty (snd kv) = true) eventData).
Proof.
  split.
  - now intros [-> | ->].
  - intros Hnull Hundef.
    destruct data; try contradiction;
      (eapply createEpicsJSON_of_entries; reflexivity).
Qed.

(** X8.  The payload built from a mapped row always carries the context:
    [getRowData] hands an object to [createEpicsJSON] even when it
    failed, so the assembler never falls back to [{}]. *)
Theorem mapped_row_payload_keeps_context
  (headers row contextData : value) (e : option event) :
  exists eventData,
    createEpicsJSON (getRowData headers row) contextData e
    = VObj (("context", contextData) :: ("eventData", VObj eventData) :: metadata e)
    /\ Forall (fun kv => nonEmpty (snd kv) = true) eventData
    /\ (row = VNull \/ row = VUndefined -> eventData = []).
Proof.
  destruct (getRowData_object headers row) as [ps Hps].
  destruct (createEpicsJSON_of_entries (VObj ps) _ contextData e eq_refl)
    as (eventData & Hjson & Hne).
  exists eventData. rewrite Hps. split; [exact Hjson|]. split; [exact Hne|].
  intros Hrow. rewrite (getRowData_absent_row headers row Hrow) in Hps.
  injection Hps as <-.
  unfold createEpicsJSON, createEpicsJSON_try in Hjson. simpl in Hjson.
  now injection Hjson as <-.
Qed.

(* ================================================================== *)
(** ** The cache key *)

Lemma digits_no_underscore d :
  ~ In "_"%char (list_ascii_of_string (NilEmpty.string_of_uint d)).
Proof.
  induction d; simpl; intros H; try (destruct H as [H|H]; [discriminate | auto]).
  exact H.
Qed.

Lemma string_of_Z_no_underscore n :
  ~ In "_"%char (list_ascii_of_string (string_of_Z n)).
Proof.
  unfold string_of_Z, NilZero.string_of_int, NilZero.string_of_uint.
  destruct (Z.to_int n) as [d|d]; destruct d;
    try (simpl; intros H; repeat (destruct H as [H|H]; [discriminate|]);
         try exact H; revert H; apply digits_no_underscore).
Qed.

Lemma string_of_Z_inj n m : string_of_Z n = string_of_Z m -> n = m.
Proof.
  unfold string_of_Z. intros H. apply DecimalZ.to_int_inj.
  assert (Hnn : forall z, Z.to_int z <> Decimal.Pos Decimal.Nil
                          /\ Z.to_int z <> Decimal.Neg Decimal.Nil).
  { intros [|p|p]; simpl; split; try discriminate;
      intros Hp; injection Hp as Hp; now apply DecimalPos.Unsigned.to_uint_nonnil in Hp. }
  apply (f_equal NilZero.int_of_string) in H.
  rewrite !NilZero.isi in H by apply Hnn. congruence.
Qed.

(** Two texts that end in an underscore and an underscore-free tail are
    equal only part by part. *)
Lemma split_at_last_underscore a : forall b d1 d2,
  ~ In "_"%char (list_ascii_of_string d1) ->
  ~ In "_"%char (list_ascii_of_string d2) ->
  (a ++ String "_" d1 = b ++ String "_" d2)%string ->
  a = b /\ d1 = d2.
Proof.
  induction a as [|c a IH]; intros b d1 d2 H1 H2 H.
  - destruct b as [|c' b]; simpl in H.
    + injection H as ->. now split.
    + injection H as <- ->. exfalso. apply H1.
      clear. induction b as [|c b IH]; simpl; [now left | now right].
  - destruct b as [|c' b]; simpl in H.
    + injection H as -> <-. exfalso. apply H2.
      clear. induction a as [|c a IH]; simpl; [now left | now right].
    + injection H as -> H. destruct (IH b d1 d2 H1 H2 H) as [-> ->]. now split.
Qed.

Lemma cache_key_parts (id1 id2 : string) (n1 n2 : Z) :
  (id1 ++ "_" ++ string_of_Z n1 = id2 ++ "_" ++ string_of_Z n2)%string ->
  id1 = id2 /\ n1 = n2.
Proof.
  intros H. simpl in H.
  apply split_at_last_underscore in H; try apply string_of_Z_no_underscore.
  destruct H as [Hid Hrow]. split; [exact Hid | now apply string_of_Z_inj].
Qed.

(** X9.  The cache key tells spreadsheets and row counts apart: two
    spreadsheets with a Context sheet have the same key exactly when they
    have the same id and their Context sheets the same last row.  The
    values of the sheet do not enter the key. *)
Theorem getCacheKey_injective (ss1 ss2 : spreadsheet) (sh1 sh2 : sheet) :
  getSheetByName ss1 "Context" = Some sh1 ->
  getSheetByName ss2 "Context" = Some sh2 ->
  (getCacheKey ss1 = getCacheKey ss2
   <-> getId ss1 = getId ss2 /\ getLastRow sh1 = getLastRow sh2).
Proof.
  intros H1 H2. unfold getCacheKey. rewrite H1, H2. split.
  - intros H. injection H as H. now apply cache_key_parts.
  - now intros [-> ->].
Qed.

(* ================================================================== *)
(** ** The cached context *)

Section HandlerFacts.
Variable JSON_parse : string -> option value.
Variable JSON_stringify : value -> string.
Variable accepts : string -> string -> bool.

Lemma cache_get_put key text expiration c c' key' :
  cache_put accepts key text expiration c = Some c' ->
  cache_get key' c' = if key' =? key then Some text else cache_get key' c.
Proof.
  unfold cache_put. destruct (accepts key text); [|discriminate].
  intros H. injection H as <-. unfold cache_get. simpl.
  now destruct (key' =? key).
Qed.

Lemma getContextData_hit ss key text c :
  getCacheKey ss = Some key ->
  cache_get key c = Some text -> text <> "" ->
  getContextData JSON_parse JSON_stringify accepts ss c
  = (match JSON_parse text with Some v => v | None => VObj [] end, c).
Proof.
  intros Hkey Hget Htext. unfold getContextData, getContextData_try.
  rewrite Hkey, Hget. destruct (String.eqb_spec text ""); [contradiction|].
  now destruct (JSON_parse text).
Qed.

Lemma getContextData_miss ss sh key c :
  getCacheKey ss = Some key ->
  getSheetByName ss "Context" = Some sh ->
  cache_get key c = None \/ cache_get key c = Some "" ->
  let tree := createContextJSON JSON_parse (getValues sh) in
  getContextData JSON_parse JSON_stringify accepts ss c
  = if accepts key (JSON_stringify tree)
    then (tree, (key, (JSON_stringify tree, Some 21600%Z)) :: c)
    else (VObj [], c).
Proof.
  intros Hkey Hsh Hget tree. unfold getContextData, getContextData_try.
  rewrite Hkey.
  assert (Hpop : populate JSON_parse JSON_stringify accepts ss key c
                 = if accepts key (JSON_stringify tree)
                   then Some (tree, (key, (JSON_stringify tree, Some 21600%Z)) :: c)
                   else None).
  { unfold populate, cache_put. rewrite Hsh. fold tree.
    now destruct (accepts key (JSON_stringify tree)). }
  destruct Hget as [-> | ->]; simpl; rewrite Hpop;
    now destruct (accepts key (JSON_stringify tree)).
Qed.

(** X10.  On a miss [getContextData] computes the tree from the Context
    sheet, returns it and stores its text under the key for 21600
    seconds.  The next call with the same key returns what [JSON.parse]
    makes of that text and leaves the cache alone, without looking at the
    sheet: a spreadsheet with the same id and last row but other values
    is served the stored tree. *)
Theorem getContextData_populates_then_serves_the_cache
  (ss ss' : spreadsheet) (sh : sheet) (key : string) (c : cache) :
  let tree := createContextJSON JSON_parse (getValues sh) in
  let c1 := (key, (JSON_stringify tree, Some 21600%Z)) :: c in
  getCacheKey ss = Some key ->
  getSheetByName ss "Context" = Some sh ->
  getCacheKey ss' = Some key ->
  cache_get key c = None ->
  accepts key (JSON_stringify tree) = true ->
  JSON_stringify tree <> "" ->
  getContextData JSON_parse JSON_stringify accepts ss c = (tree, c1)
  /\ getContextData JSON_parse JSON_stringify accepts ss' c1
     = (match JSON_parse (JSON_stringify tree) with
        | Some v => v
        | None => VObj []
        end, c1).
Proof.
  intros tree c1 Hkey Hsh Hkey' Hmiss Hacc Htext. split.
  - rewrite (getContextData_miss ss sh key c Hkey Hsh (or_introl Hmiss)).
    fold tree. now rewrite Hacc.
  - apply (getContextData_hit ss' key (JSON_stringify tree) c1);
      [exact Hkey' | | exact Htext].
    unfold c1, cache_get. simpl. now rewrite String.eqb_refl.
Qed.

Lemma handleContextEdit_stores active source key c :
  let text := JSON_stringify
                (createContextJSON JSON_parse (getSheetData active "Context")) in
  getCacheKey source = Some key ->
  accepts key text = true ->
  handleContextEdit JSON_parse JSON_stringify accepts active source c
  = (key, (text, None)) :: c.
Proof.
  intros text Hkey Hacc. unfold handleContextEdit, cache_put.
  rewrite Hkey. fold text. now rewrite Hacc.
Qed.

(** X11.  What a Context edit stores is what the next read returns:
    after [handleContextEdit], [getContextData] on the edited
    spreadsheet returns the parsed text of the tree of the active Context
    sheet, and changes nothing; the entry carries no expiration. *)
Theorem context_edit_then_read
  (active source : spreadsheet) (key : string) (c : cache) :
  let text := JSON_stringify
                (createContextJSON JSON_parse (getSheetData active "Context")) in
  getCacheKey source = Some key ->
  accepts key text = true ->
  text <> "" ->
  handleContextEdit JSON_parse JSON_stringify accepts active source c
  = (key, (text, None)) :: c
  /\ getContextData JSON_parse JSON_stringify accepts source
       (handleContextEdit JSON_parse JSON_stringify accepts active source c)
     = (match JSON_parse text with Some v => v | None => VObj [] end,
        (key, (text, None)) :: c).
Proof.
  intros text Hkey Hacc Htext.
  assert (Hedit : handleContextEdit JSON_parse JSON_stringify accepts active source c
                  = (key, (text, None)) :: c)
    by now apply handleContextEdit_stores.
  split; [exact Hedit|]. rewrite Hedit.
  rewrite (getContextData_hit source key text); [reflexivity | exact Hkey | | exact Htext].
  unfold cache_get. simpl. now rewrite String.eqb_refl.
Qed.

(** X12.  [getContextData] answers [{}] and leaves the cache as it was
    when the spreadsheet has no Context sheet, when the cached text does
    not parse (the entry is not repaired), and when the cache service
    refuses the text of a freshly computed tree (the tree is lost). *)
Theorem getContextData_fails_soft (ss : spreadsheet) (c : cache) :
  (getSheetByName ss "Context" = None ->
   getContextData JSON_parse JSON_stringify accepts ss c = (VObj [], c))
  /\ (forall key text,
        getCacheKey ss = Some key ->
        cache_get key c = Some text -> text <> "" -> JSON_parse text = None ->
        getContextData JSON_parse JSON_stringify accepts ss c = (VObj [], c))
  /\ (forall key sh,
        getCacheKey ss = Some key ->
        getSheetByName ss "Context" = Some sh ->
        cache_get key c = None ->
        accepts key (JSON_stringify (createContextJSON JSON_parse (getValues sh)))
        = false ->
        getContextData JSON_parse JSON_stringify accepts ss c = (VObj [], c)).
Proof.
  repeat split.
  - intros Hno. unfold getContextData, getContextData_try, getCacheKey.
    now rewrite Hno.
  - intros key text Hkey Hget Htext Hparse.
    rewrite (getContextData_hit ss key text c Hkey Hget Htext). now rewrite Hparse.
  - intros key sh Hkey Hsh Hmiss Hacc.
    rewrite (getContextData_miss ss sh key c Hkey Hsh (or_introl Hmiss)).
    now rewrite Hacc.
Qed.

(** X20.  [getContextData] never overwrites: it leaves the cache as it
    was, or adds one entry, under the key of the spreadsheet, with the
    text of the tree of its Context sheet and an expiration of 21600
    seconds, and this only when the cache had no text under that key. *)
Theorem getContextData_never_overwrites (ss : spreadsheet) (c : cache) :
  let c' := snd (getContextData JSON_parse JSON_stringify accepts ss c) in
  c' = c
  \/ exists key sh,
       getCacheKey ss = Some key
       /\ getSheetByName ss "Context" = Some sh
       /\ (cache_get key c = None \/ cache_get key c = Some "")
       /\ c' = (key, (JSON_stringify (createContextJSON JSON_parse (getValues sh)),
                      Some 21600%Z)) :: c.
Proof.
  intros c'. subst c'.
  destruct (getCacheKey ss) as [key|] eqn:Hkey;
    [| left; unfold getContextData, getContextData_try; now rewrite Hkey].
  assert (Hsh : exists sh, getSheetByName ss "Context" = Some sh).
  { unfold getCacheKey in Hkey.
    destruct (getSheetByName ss "Context") as [sh|]; [now exists sh | discriminate]. }
  destruct Hsh as [sh Hsh].
  assert (Hmiss : cache_get key c = None \/ cache_get key c = Some "" ->
            snd (getContextData JSON_parse JSON_stringify accepts ss c) = c
            \/ exists key0 sh0,
                 Some key = Some key0
                 /\ getSheetByName ss "Context" = Some sh0
                 /\ (cache_get key0 c = None \/ cache_get key0 c = Some "")
                 /\ snd (getContextData JSON_parse JSON_stringify accepts ss c)
                    = (key0, (JSON_stringify
                                (createContextJSON JSON_parse (getValues sh0)),
                              Some 21600%Z)) :: c).
  { intros Hm. rewrite (getContextData_miss ss sh key c Hkey Hsh Hm).
    destruct (accepts key _); [|now left].
    right. exists key, sh. repeat split; assumption || reflexivity. }
  destruct (cache_get key c) as [text|] eqn:Hget; [|apply Hmiss; now left].
  destruct (String.eqb_spec text "") as [->|Htext]; [apply Hmiss; now right|].
  left. now rewrite (getContextData_hit ss key text c Hkey Hget Htext).
Qed.

Lemma handleContextEdit_frame active source c key' :
  getCacheKey source <> Some key' ->
  cache_get key' (handleContextEdit JSON_parse JSON_stringify accepts active source c)
  = cache_get key' c.
Proof.
  intros Hne. unfold handleContextEdit.
  destruct (getCacheKey source) as [key|]; [|reflexivity].
  destruct (cache_put accepts key _ None c) as [c'|] eqn:Hput; [|reflexivity].
  rewrite (cache_get_put _ _ _ _ _ key' Hput).
  destruct (String.eqb_spec key' key); [congruence | reflexivity].
Qed.

Lemma getContextData_reads_one_key ss key c c' :
  getCacheKey ss = Some key ->
  cache_get key c = cache_get key c' ->
  fst (getContextData JSON_parse JSON_stringify accepts ss c)
  = fst (getContextData JSON_parse JSON_stringify accepts ss c').
Proof.
  intros Hkey Hsame. unfold getContextData, getContextData_try.
  rewrite Hkey, <- Hsame.
  assert (Hpop : fst (match populate JSON_parse JSON_stringify accepts ss key c with
                      | Some r => r | None => (VObj [], c) end)
                 = fst (match populate JSON_parse JSON_stringify accepts ss key c' with
                        | Some r => r | None => (VObj [], c') end)).
  { unfold populate, cache_put. destruct (getSheetByName ss "Context"); [|reflexivity].
    now destruct (accepts key _). }
  destruct (cache_get key c) as [text|]; [|exact Hpop].
  destruct (text =? ""); [exact Hpop|].
  now destruct (JSON_parse text).
Qed.

(** X13.  A Context edit on one spreadsheet does not change what
    [getContextData] returns for a spreadsheet with another id, or with
    another last row of its Context sheet. *)
Theorem context_edit_leaves_other_spreadsheets_alone
  (active ss1 ss2 : spreadsheet) (sh1 sh2 : sheet) (c : cache) :
  getSheetByName ss1 "Context" = Some sh1 ->
  getSheetByName ss2 "Context" = Some sh2 ->
  getId ss1 <> getId ss2 \/ getLastRow sh1 <> getLastRow sh2 ->
  fst (getContextData JSON_parse JSON_stringify accepts ss2
         (handleContextEdit JSON_parse JSON_stringify accepts active ss1 c))
  = fst (getContextData JSON_parse JSON_stringify accepts ss2 c).
Proof.
  intros H1 H2 Hdiff.
  destruct (getCacheKey ss2) as [key2|] eqn:Hkey2;
    [| unfold getCacheKey in Hkey2; rewrite H2 in Hkey2; discriminate].
  apply (getContextData_reads_one_key ss2 key2); [exact Hkey2|].
  apply handleContextEdit_frame. rewrite <- Hkey2. intros Heq.
  unfold getCacheKey in Heq. rewrite H1, H2 in Heq. injection Heq as Heq.
  apply cache_key_parts in Heq.
  destruct Heq as [Hid Hrow]. destruct Hdiff; contradiction.
Qed.

(* ================================================================== *)
(** ** The edit handlers *)

Lemma sendToWebhook_requests cfg json w :
  requests (sendToWebhook JSON_stringify cfg json w)
  = requests w
    ++ match own_get "GROOM_EPICS" (WEBHOOKS cfg) with
       | Some u => if u =? "" then [] else [(u, JSON_stringify json)]
       | None => []
       end.
Proof.
  unfold sendToWebhook. rewrite getWebhookUrl_configured by reflexivity.
  destruct (own_get "GROOM_EPICS" (WEBHOOKS cfg)) as [u|];
    [destruct (u =? "")|]; simpl; now rewrite ?app_nil_r.
Qed.

(** X14.  [handleEdit] calls the webhook exactly when the edited sheet is
    Epics, the edited cell is in column 10 with the value ["Groom EPIC"],
    and a non-empty URL is configured for [GROOM_EPICS]; it then sends
    one request, whose payload is the text of [createEpicsJSON] applied to
    the mapped row, the context data and the event.  No other edit sends
    anything. *)
Theorem handleEdit_requests (cfg : config) (e : edit) (w : world) :
  requests (handleEdit JSON_parse JSON_stringify accepts cfg e w)
  = requests w
    ++ (if (edit_sheet e =? "Epics")
           && isExtractTodoSummariesTrigger (edit_range e)
        then match own_get "GROOM_EPICS" (WEBHOOKS cfg) with
             | Some u =>
                 if u =? "" then []
                 else [(u, JSON_stringify
                             (createEpicsJSON
                                (getRowData (edit_headers e) (edit_rowData e))
                                (fst (getContextData JSON_parse JSON_stringify accepts
                                        (edit_source e) (script_cache w)))
                                (Some (event_of e))))]
             | None => []
             end
        else []).
Proof.
  unfold handleEdit.
  destruct (String.eqb_spec (edit_sheet e) "Context") as [Hctx|Hctx].
  - rewrite Hctx. simpl. now rewrite app_nil_r.
  - destruct (edit_sheet e =? "Epics"); simpl; [|now rewrite app_nil_r].
    unfold handleEpicsEdit.
    destruct (isExtractTodoSummariesTrigger (edit_range e)); [|now rewrite app_nil_r].
    destruct (getContextData JSON_parse JSON_stringify accepts (edit_source e)
                (script_cache w)) as [contextData c'].
    now rewrite sendToWebhook_requests.
Qed.

(** X15.  Edits that change nothing: an edit on a sheet other than
    Context and Epics, an Epics edit that is not the trigger (no cache
    access, no request), and a Context edit whose text the cache service
    refuses. *)
Theorem handleEdit_ignores (cfg : config) (e : edit) (w : world) :
  (edit_sheet e <> "Context" /\ edit_sheet e <> "Epics")
  \/ (edit_sheet e = "Epics" /\ isExtractTodoSummariesTrigger (edit_range e) = false)
  \/ (edit_sheet e = "Context"
      /\ forall key, getCacheKey (edit_source e) = Some key ->
            accepts key (JSON_stringify
                           (createContextJSON JSON_parse
                              (getSheetData (edit_active e) "Context"))) = false) ->
  handleEdit JSON_parse JSON_stringify accepts cfg e w = w.
Proof.
  unfold handleEdit. intros [[Hc He] | [[He Ht] | [Hc Hno]]].
  - destruct (String.eqb_spec (edit_sheet e) "Context"); [contradiction|].
    destruct (String.eqb_spec (edit_sheet e) "Epics"); [contradiction|].
    reflexivity.
  - rewrite He. simpl. unfold handleEpicsEdit. now rewrite Ht.
  - rewrite Hc. simpl. unfold handleContextEdit, cache_put.
    destruct (getCacheKey (edit_source e)) as [key|]; [|now destruct w].
    rewrite (Hno key eq_refl). now destruct w.
Qed.

(** X16.  End to end: after a Context edit, a triggering Epics edit on
    the same spreadsheet sends the context the first edit cached; the
    Context sheet is not read again and the cache is left as the first
    edit left it. *)
Theorem context_edit_then_trigger
  (cfg : config) (e1 e2 : edit) (w : world) (key url : string) (tree : value) :
  let text := JSON_stringify
                (createContextJSON JSON_parse
                   (getSheetData (edit_active e1) "Context")) in
  edit_sheet e1 = "Context" ->
  edit_sheet e2 = "Epics" ->
  isExtractTodoSummariesTrigger (edit_range e2) = true ->
  getCacheKey (edit_source e1) = Some key ->
  getCacheKey (edit_source e2) = Some key ->
  accepts key text = true ->
  text <> "" ->
  JSON_parse text = Some tree ->
  getWebhookUrl cfg "GROOM_EPICS" = Url url ->
  handleEdit JSON_parse JSON_stringify accepts cfg e2
    (handleEdit JSON_parse JSON_stringify accepts cfg e1 w)
  = mkWorld ((key, (text, None)) :: script_cache w)
            (requests w
             ++ [(url, JSON_stringify
                         (createEpicsJSON
                            (getRowData (edit_headers e2) (edit_rowData e2))
                            tree (Some (event_of e2))))]).
Proof.
  intros text Hs1 Hs2 Htrig Hk1 Hk2 Hacc Htext Hparse Hurl.
  assert (H1 : handleEdit JSON_parse JSON_stringify accepts cfg e1 w
               = mkWorld ((key, (text, None)) :: script_cache w) (requests w)).
  { unfold handleEdit. rewrite Hs1. simpl.
    now rewrite (handleContextEdit_stores _ _ key _ Hk1 Hacc). }
  rewrite H1. unfold handleEdit. rewrite Hs2. simpl.
  unfold handleEpicsEdit. rewrite Htrig. simpl script_cache.
  rewrite (getContextData_hit (edit_source e2) key text _ Hk2); [| |exact Htext].
  - rewrite Hparse. unfold sendToWebhook. now rewrite Hurl.
  - unfold cache_get. simpl. now rewrite String.eqb_refl.
Qed.
End HandlerFacts.


(* ================================================================== *)
(** ** The comparison of the test cases *)

Lemma isEquivalent_objects ps qs :
  isEquivalent (VObj ps) (VObj qs)
  = (List.length ps =? List.length qs)%nat
    && forallb (fun kv => match own_get (fst kv) qs with
                          | Some vb => isEquivalent (snd kv) vb
                          | None => false
                          end) ps.
Proof.
  cbn [isEquivalent typeof is_null negb andb]. rewrite String.eqb_refl.
  unfold entries_of. cbn [keys_of values_of]. unfold Object_keys, Object_values.
  rewrite combine_fst_snd. cbn [andb]. f_equal.
  induction ps as [|[k va] ps IH]; [reflexivity|].
  cbn [forallb fst snd]. now rewrite <- IH.
Qed.

(** X17.  [isEquivalent] does not look at the order of the keys: an
    object with distinct keys is equivalent to each of its reorderings
    (given that each of its values is equivalent to itself, as every
    value that is not an object is). *)
Theorem isEquivalent_ignores_key_order (ps qs : props value) :
  NoDup (map fst ps) ->
  Permutation.Permutation ps qs ->
  (forall k v, In (k, v) ps -> isEquivalent v v = true) ->
  isEquivalent (VObj ps) (VObj qs) = true.
Proof.
  intros Hnd Hperm Hrefl. rewrite isEquivalent_objects.
  rewrite (Permutation.Permutation_length Hperm), Nat.eqb_refl. simpl.
  assert (Hnd' : NoDup (map fst qs))
    by (eapply Permutation.Permutation_NoDup;
        [apply Permutation.Permutation_map; exact Hperm | exact Hnd]).
  apply forallb_forall. intros [k v] Hin. simpl.
  rewrite (In_own_get _ k v qs Hnd').
  - now apply (Hrefl k).
  - eapply Permutation.Permutation_in; [exact Hperm | exact Hin].
Qed.

(** X18.  When [isEquivalent] accepts two objects, the first with
    distinct keys, they have the same keys, and under each key of the
    first the second holds an equivalent value. *)
Theorem isEquivalent_objects_sound (ps qs : props value) :
  NoDup (map fst ps) ->
  isEquivalent (VObj ps) (VObj qs) = true ->
  (forall k, In k (map fst qs) <-> In k (map fst ps))
  /\ (forall k va, In (k, va) ps ->
        exists vb, own_get k qs = Some vb /\ isEquivalent va vb = true).
Proof.
  intros Hnd H. rewrite isEquivalent_objects in H.
  apply andb_true_iff in H. destruct H as [Hlen Hall].
  apply Nat.eqb_eq in Hlen. rewrite forallb_forall in Hall.
  assert (Hvals : forall k va, In (k, va) ps ->
                    exists vb, own_get k qs = Some vb /\ isEquivalent va vb = true).
  { intros k va Hin. specialize (Hall (k, va) Hin). simpl in Hall.
    destruct (own_get k qs) as [vb|]; [|discriminate]. now exists vb. }
  assert (Hincl : incl (map fst ps) (map fst qs)).
  { intros k Hk. apply in_map_iff in Hk. destruct Hk as [[k' va] [<- Hin]].
    destruct (Hvals k' va Hin) as [vb [Hget _]].
    apply has_own_In. unfold has_own. simpl. now rewrite Hget. }
  split; [|exact Hvals].
  intros k. split; [|apply Hincl].
  apply (NoDup_length_incl Hnd); [|exact Hincl].
  rewrite !length_map. lia.
Qed.

Lemma index_key_inj i j : index_key i = index_key j -> i = j.
Proof.
  unfold index_key. intros H. apply string_of_Z_inj in H. lia.
Qed.

Lemma index_keys_NoDup i n : NoDup (map index_key (seq i n)).
Proof.
  apply Finite.Injective_map_NoDup; [|apply seq_NoDup].
  intros a b. apply index_key_inj.
Qed.

Lemma combine_keys (ks : list string) : forall (l : list value),
  List.length ks = List.length l -> map fst (combine ks l) = ks.
Proof.
  induction ks as [|k ks IH]; intros [|v l] Hlen; try discriminate; simpl;
    [reflexivity|]. now rewrite IH by (simpl in Hlen; lia).
Qed.

Lemma indexed_entry_In (pre : list value) : forall i (va : value) suf,
  In (index_key (i + List.length pre), va)
     (combine (map index_key (seq i (List.length (pre ++ va :: suf))))
              (pre ++ va :: suf)).
Proof.
  induction pre as [|p pre IH]; intros i va suf; simpl.
  - left. now rewrite Nat.add_0_r.
  - right. rewrite <- Nat.add_succ_comm. apply IH.
Qed.

Lemma array_entry_get (pre : list value) (va : value) suf :
  own_get (index_key (List.length pre)) (entries_of (VArr (pre ++ va :: suf)))
  = Some va.
Proof.
  apply In_own_get.
  - unfold entries_of. cbn [keys_of values_of].
    rewrite combine_keys by now rewrite length_map, length_seq.
    apply index_keys_NoDup.
  - apply (indexed_entry_In pre 0 va suf).
Qed.

(** X19.  [isEquivalent] cannot tell an array from the object that has
    the same entries under the keys ["0"], ["1"], ...: it accepts the
    pair, in particular [[]] and [{}]. *)
Theorem isEquivalent_confuses_array_and_object (l : list value) :
  (forall v, In v l -> isEquivalent v v = true) ->
  isEquivalent (VArr l) (VObj (entries_of (VArr l))) = true.
Proof.
  intros Hrefl.
  assert (Hent : entries_of (VObj (entries_of (VArr l))) = entries_of (VArr l)).
  { unfold entries_of at 1. cbn [keys_of values_of].
    unfold Object_keys, Object_values. apply combine_fst_snd. }
  cbn [isEquivalent typeof is_null negb]. rewrite String.eqb_refl, Hent.
  assert (Hlen : List.length (entries_of (VArr l)) = List.length l).
  { unfold entries_of. cbn [keys_of values_of].
    rewrite length_combine, length_map, length_seq. lia. }
  rewrite Hlen, Nat.eqb_refl. cbn [andb].
  assert (Hevery : forall suf pre, l = pre ++ suf ->
            (fix every (i : nat) (l0 : list value) {struct l0} : bool :=
               match l0 with
               | [] => true
               | va :: l' =>
                   match own_get (index_key i) (entries_of (VArr l)) with
                   | Some vb => isEquivalent va vb
                   | None => false
                   end && every (S i) l'
               end) (List.length pre) suf = true).
  { induction suf as [|va suf IH]; intros pre Hl; [reflexivity|].
    rewrite Hl at 1. rewrite array_entry_get.
    rewrite Hrefl by (rewrite Hl; apply in_elt). cbn [andb].
    specialize (IH (pre ++ [va])). rewrite length_app in IH. simpl in IH.
    rewrite Nat.add_1_r in IH. apply IH. now rewrite <- app_assoc. }
  exact (Hevery l [] eq_refl).
Qed.

(* ================================================================== *)
(** ** Further runs on concrete inputs *)

Lemma only_columns_A_D_G_matter_witness :
  let g := [header_row; data_row (SStr "Limits") (SStr "max") (SStr "42")] in
  let g' := [[]; [SStr "Limits"; SNum 7; SBool true; SStr "max"; SNull; SNull;
                  SStr "42"; SStr "beyond G"]] in
  Forall2 same_entry (tl g) (tl g')
  /\ createContextJSON json_parse (grid_value g)
     = createContextJSON json_parse (grid_value g').
Proof.
  intros g g'.
  assert (H : Forall2 same_entry (tl g) (tl g'))
    by (repeat constructor).
  split; [exact H|]. exact (only_columns_A_D_G_matter json_parse g g' H).
Defined.

Lemma getRowData_drops_proto_header_witness :
  let hs := [VStr "Epic"; VStr "__proto__"; VStr "Owner"] in
  let cells := [SStr "Checkout"; SStr "hidden"; SNum 7] in
  ~ In SNull cells
  /\ getRowData (VArr hs) (row_value cells)
     = VObj [("Epic", VStr "Checkout"); ("Owner", VNum 7)].
Proof.
  intros hs cells.
  assert (H : ~ In SNull cells) by (simpl; intuition discriminate).
  split; [exact H|].
  rewrite (getRowData_drops_proto_header hs cells H). reflexivity.
Defined.

Lemma getCacheKey_injective_witness :
  getSheetByName documented_spreadsheet "Context"
  = Some (sample_sheet documented_grid 5)
  /\ getSheetByName other_spreadsheet "Context" = Some (sample_sheet literal_grid 5)
  /\ getCacheKey documented_spreadsheet <> getCacheKey other_spreadsheet.
Proof.
  split; [reflexivity|]. split; [reflexivity|].
  intros H.
  apply (getCacheKey_injective documented_spreadsheet other_spreadsheet
           _ _ eq_refl eq_refl) in H.
  destruct H as [H _]. discriminate.
Defined.

Lemma getContextData_populates_then_serves_the_cache_witness :
  let key := "contextData_sheet-1_5" in
  let sh := sample_sheet documented_grid 5 in
  let tree := createContextJSON json_parse (getValues sh) in
  getCacheKey documented_spreadsheet = Some key
  /\ getSheetByName documented_spreadsheet "Context" = Some sh
  /\ getCacheKey rewritten_spreadsheet = Some key
  /\ cache_get key [] = None
  /\ within_quota key (json_text tree) = true
  /\ json_text tree <> ""
  /\ fst (getContextData json_parse json_text within_quota rewritten_spreadsheet
            [(key, (json_text tree, Some 21600%Z))])
     = tree.
Proof.
  intros key sh tree.
  assert (Hq : within_quota key (json_text tree) = true) by (vm_compute; reflexivity).
  assert (Ht : json_text tree <> "") by (vm_compute; discriminate).
  repeat (split; [first [reflexivity | exact Hq | exact Ht]|]).
  destruct (getContextData_populates_then_serves_the_cache
              json_parse json_text within_quota
              documented_spreadsheet rewritten_spreadsheet sh key []
              eq_refl eq_refl eq_refl eq_refl Hq Ht) as [_ H].
  refine (eq_trans (f_equal fst H) _). vm_compute. reflexivity.
Defined.

Lemma context_edit_then_read_witness :
  let key := "contextData_sheet-1_5" in
  let text := json_text (createContextJSON json_parse
                           (getSheetData documented_spreadsheet "Context")) in
  getCacheKey documented_spreadsheet = Some key
  /\ within_quota key text = true
  /\ text <> ""
  /\ handleContextEdit json_parse json_text within_quota
       documented_spreadsheet documented_spreadsheet []
     = [(key, (text, None))].
Proof.
  intros key text.
  assert (Hq : within_quota key text = true) by (vm_compute; reflexivity).
  assert (Ht : text <> "") by (vm_compute; discriminate).
  split; [reflexivity|]. split; [exact Hq|]. split; [exact Ht|].
  exact (proj1 (context_edit_then_read json_parse json_text within_quota
                  documented_spreadsheet documented_spreadsheet key []
                  eq_refl Hq Ht)).
Defined.

Lemma context_edit_leaves_other_spreadsheets_alone_witness :
  getSheetByName documented_spreadsheet "Context"
  = Some (sample_sheet documented_grid 5)
  /\ getSheetByName other_spreadsheet "Context" = Some (sample_sheet literal_grid 5)
  /\ getId documented_spreadsheet <> getId other_spreadsheet
  /\ fst (getContextData json_parse json_text within_quota other_spreadsheet
            (handleContextEdit json_parse json_text within_quota
               documented_spreadsheet documented_spreadsheet []))
     = fst (getContextData json_parse json_text within_quota other_spreadsheet []).
Proof.
  assert (Hid : getId documented_spreadsheet <> getId other_spreadsheet)
    by discriminate.
  split; [reflexivity|]. split; [reflexivity|]. split; [exact Hid|].
  exact (context_edit_leaves_other_spreadsheets_alone
           json_parse json_text within_quota
           documented_spreadsheet documented_spreadsheet other_spreadsheet
           _ _ [] eq_refl eq_refl (or_introl Hid)).
Defined.

Lemma handleEdit_ignores_witness :
  let e := sample_edit documented_spreadsheet "Notes" trigger_range in
  (edit_sheet e <> "Context" /\ edit_sheet e <> "Epics")
  /\ handleEdit json_parse json_text within_quota CONFIG e (mkWorld [] [])
     = mkWorld [] [].
Proof.
  intros e.
  assert (H : edit_sheet e <> "Context" /\ edit_sheet e <> "Epics")
    by (split; discriminate).
  split; [exact H|].
  exact (handleEdit_ignores json_parse json_text within_quota CONFIG e
           (mkWorld [] []) (or_introl H)).
Defined.

Lemma context_edit_then_trigger_witness :
  let e1 := sample_edit documented_spreadsheet "Context" (mkRange 1 (VStr "x")) in
  let e2 := sample_edit documented_spreadsheet "Epics" trigger_range in
  let key := "contextData_sheet-1_5" in
  let tree := createContextJSON json_parse (grid_value documented_grid) in
  let url := "https://hook.eu2.make.com/rl83vjk9x0iad1avisatjk9rok27wgpy" in
  isExtractTodoSummariesTrigger (edit_range e2) = true
  /\ getCacheKey (edit_source e1) = Some key
  /\ within_quota key (json_text tree) = true
  /\ json_text tree <> ""
  /\ json_parse (json_text tree) = Some tree
  /\ getWebhookUrl CONFIG "GROOM_EPICS" = Url url
  /\ requests (handleEdit json_parse json_text within_quota CONFIG e2
                 (handleEdit json_parse json_text within_quota CONFIG e1
                    (mkWorld [] [])))
     = [(url, json_text
                (createEpicsJSON (getRowData (edit_headers e2) (edit_rowData e2))
                                 tree (Some (event_of e2))))].
Proof.
  intros e1 e2 key tree url.
  assert (Hq : within_quota key (json_text tree) = true) by (vm_compute; reflexivity).
  assert (Ht : json_text tree <> "") by (vm_compute; discriminate).
  assert (Hp : json_parse (json_text tree) = Some tree) by (vm_compute; reflexivity).
  repeat (split; [first [reflexivity | exact Hq | exact Ht | exact Hp]|]).
  exact (f_equal requests
           (context_edit_then_trigger json_parse json_text within_quota CONFIG
              e1 e2 (mkWorld [] []) key url tree
              eq_refl eq_refl eq_refl eq_refl eq_refl Hq Ht Hp eq_refl)).
Defined.

Lemma isEquivalent_ignores_key_order_witness :
  let ps := members (createContextJSON json_parse (grid_value documented_grid)) in
  let qs := members expected_in_test in
  NoDup (map fst ps)
  /\ Permutation.Permutation ps qs
  /\ isEquivalent (VObj ps) (VObj qs) = true.
Proof.
  intros ps qs.
  assert (Hnd : NoDup (map fst ps))
    by (vm_compute; repeat constructor; simpl; intuition discriminate).
  assert (Hperm : Permutation.Permutation ps qs).
  { vm_compute. apply Permutation.perm_skip. apply Permutation.perm_swap. }
  split; [exact Hnd|]. split; [exact Hperm|].
  apply (isEquivalent_ignores_key_order ps qs Hnd Hperm).
  intros k v Hin. vm_compute in Hin.
  repeat (destruct Hin as [Hin|Hin]; [injection Hin as <- <-; reflexivity|]).
  destruct Hin.
Defined.

Lemma isEquivalent_objects_sound_witness :
  let ps := [("a", VNum 1); ("b", VStr "x")] in
  let qs := [("b", VStr "x"); ("a", VNum 1)] in
  NoDup (map fst ps)
  /\ isEquivalent (VObj ps) (VObj qs) = true
  /\ (In "b" (map fst qs) <-> In "b" (map fst ps)).
Proof.
  intros ps qs.
  assert (Hnd : NoDup (map fst ps))
    by (repeat constructor; simpl; intuition discriminate).
  assert (Heq : isEquivalent (VObj ps) (VObj qs) = true) by reflexivity.
  split; [exact Hnd|]. split; [exact Heq|].
  exact (proj1 (isEquivalent_objects_sound ps qs Hnd Heq) "b").
Defined.

Lemma isEquivalent_confuses_array_and_object_witness :
  (forall v, In v [VStr "x"; VNum 2] -> isEquivalent v v = true)
  /\ isEquivalent (VArr [VStr "x"; VNum 2]) (VObj [("0", VStr "x"); ("1", VNum 2)])
     = true.
Proof.
  assert (H : forall v, In v [VStr "x"; VNum 2] -> isEquivalent v v = true).
  { intros v [<-|[<-|[]]]; reflexivity. }
  split; [exact H|].
  exact (isEquivalent_confuses_array_and_object [VStr "x"; VNum 2] H).
Defined.


(** C5 on a row object that owns the key ["__proto__"] (as [JSON.parse]
    and [Object.fromEntries] build them): the value under that key is
    not empty, yet the key is missing from [eventData]; the assignment
    [json.eventData[key] = value] is taken by the setter inherited from
    [Object.prototype]. *)
Theorem own_proto_key_is_lost :
  let rowObject := [("__proto__", VStr "x"); ("k", VStr "y")] in
  own_get "__proto__" rowObject = Some (VStr "x")
  /\ nonEmpty (VStr "x") = true
  /\ createEpicsJSON (VObj rowObject) (VObj []) None
     = VObj [("context", VObj []); ("eventData", VObj [("k", VStr "y")])].
Proof. repeat split. Qed.

